(** * visio_to_markdown: the shape-tree normaliser and the diagram renderer

    A shallow embedding of [VisioToMarkdownConverter]
    (visio_to_markdown_standalone.py) and the properties its specification
    states about it.

    Conventions of the embedding.
    - A Python value is a [value]; objects of the document library live in a
      [heap] and are referred to by [VRef], so that child graphs may share
      nodes and may be cyclic.
    - A function that can raise returns an [exc]; [try: ... except: ...] is
      [try_except].  Exception classes are not distinguished: every handler
      of the source is a bare [except] or [except Exception].
    - An object has the members its heap entry lists and no special method:
      it is truthy, is not iterable, and [str] of it returns (what it
      returns is a parameter, [ostr]).
    - Text is a [string] of 8-bit characters; [isalnum], [isspace], [lower]
      and [title] are Python's on the ASCII range, and a glyph outside ASCII
      is written as its UTF-8 bytes.
    - Logging calls are dropped: they do not change any returned value. *)

From stdpp Require Import base option list strings gmap pretty.
From Equations Require Import Equations.

(** ** Exceptions *)

Inductive exc (A : Type) : Type :=
| Ok (a : A)
| Raise.
Arguments Ok {A} a.
Arguments Raise {A}.

#[global] Instance exc_fmap : FMap exc := λ A B f m,
  match m with Ok a => Ok (f a) | Raise => Raise end.
#[global] Instance exc_bind : MBind exc := λ A B f m,
  match m with Ok a => f a | Raise => Raise end.

(** [try: body  except: handler] *)
Definition try_except {A} (body handler : exc A) : exc A :=
  match body with Ok a => Ok a | Raise => handler end.

(** A sequence of statements that each append to one list inside a single
    [try]: what was appended before a failure stays in the list. *)
Fixpoint appended {A} (steps : list (exc (list A))) : list A * exc () :=
  match steps with
  | [] => ([], Ok ())
  | step :: rest =>
      match step with
      | Ok xs => let '(ys, r) := appended rest in (xs ++ ys, r)
      | Raise => ([], Raise)
      end
  end.

(** A sequence of probes, each of which may [return] a value: the first
    value returned ends the sequence. *)
Fixpoint first_return {A} (steps : list (exc (option A))) : exc (option A) :=
  match steps with
  | [] => Ok None
  | step :: rest =>
      r ← step;
      match r with Some a => Ok (Some a) | None => first_return rest end
  end.

(** [for x in xs: s = body(s, x)] where [s] is mutated in place: the state
    reached before a failure is kept. *)
Fixpoint for_each {S A} (body : S → A → exc S) (xs : list A) (s : S) : S * exc () :=
  match xs with
  | [] => (s, Ok ())
  | x :: rest =>
      match body s x with
      | Ok s' => for_each body rest s'
      | Raise => (s, Raise)
      end
  end.

(** ** Values and objects *)

#[local] Set Warnings "-register-all".

Inductive value : Type :=
| VNone
| VBool (b : bool)
| VInt (n : Z)
| VStr (s : string)
| VBytes (b : list Byte.byte)
| VList (l : list value)
| VDict (d : list (value * value))
| VRef (r : nat).

(** What [getattr] finds under a name: a plain value, or something callable
    with no argument, whose call returns or raises. *)
Inductive attribute : Type :=
| Plain (v : value)
| Callable (result : exc value).

(** A member of an object: present, or a property whose getter raises an
    exception other than [AttributeError] (for which [hasattr] raises too).
    A name that is not in the object is an absent member. *)
Inductive member : Type :=
| Has (a : attribute)
| Faulty.

Abbreviation object := (gmap string member).
Abbreviation heap := (gmap nat object).

(** The names the converter probes are members of no builtin value, so only
    a reference has members. *)
Definition find_member (h : heap) (obj : value) (attr_name : string) : option member :=
  match obj with
  | VRef r => h !! r ≫= λ o, o !! attr_name
  | _ => None
  end.

Definition hasattr (h : heap) (obj : value) (attr_name : string) : exc bool :=
  match find_member h obj attr_name with
  | None => Ok false
  | Some Faulty => Raise
  | Some (Has _) => Ok true
  end.

Definition getattr (h : heap) (obj : value) (attr_name : string) : exc attribute :=
  match find_member h obj attr_name with
  | Some (Has a) => Ok a
  | _ => Raise
  end.

Definition callable (a : attribute) : bool :=
  match a with Callable _ => true | Plain _ => false end.

Definition call (a : attribute) : exc value :=
  match a with Callable result => result | Plain _ => Raise end.

(** ** Builtins *)

(** [bool(v)] *)
Definition truthy (v : value) : bool :=
  match v with
  | VNone => false
  | VBool b => b
  | VInt n => negb (n =? 0)%Z
  | VStr s => negb (String.eqb s "")
  | VBytes b => negb (bool_decide (b = []))
  | VList l => match l with [] => false | _ => true end
  | VDict d => match d with [] => false | _ => true end
  | VRef _ => true
  end.

Definition is_None (v : value) : bool :=
  match v with VNone => true | _ => false end.

(** [x or y] *)
Definition py_or (x y : value) : value := if truthy x then x else y.

Definition chars (s : string) : list Ascii.ascii := String.list_ascii_of_string s.
Definition of_chars (l : list Ascii.ascii) : string := String.string_of_list_ascii l.

(** [list(v)], and the items [for x in v] visits. *)
Definition iterate (v : value) : exc (list value) :=
  match v with
  | VList l => Ok l
  | VDict d => Ok (d.*1)
  | VStr s => Ok ((λ c, VStr (String c "")) <$> chars s)
  | VBytes b => Ok ((λ x, VInt (Z.of_N (Byte.to_N x))) <$> b)
  | _ => Raise
  end.

Definition in_range (lo hi : N) (c : Ascii.ascii) : bool :=
  ((lo <=? Ascii.N_of_ascii c) && (Ascii.N_of_ascii c <=? hi))%N.

(** [c.isalnum()] *)
Definition isalnum (c : Ascii.ascii) : bool :=
  in_range 48 57 c || in_range 65 90 c || in_range 97 122 c.

(** [c.isspace()] *)
Definition isspace (c : Ascii.ascii) : bool :=
  in_range 9 13 c || in_range 28 32 c.

Definition lower_char (c : Ascii.ascii) : Ascii.ascii :=
  if in_range 65 90 c then Ascii.ascii_of_N (Ascii.N_of_ascii c + 32) else c.

(** [s.lower()] *)
Definition lower (s : string) : string := of_chars (lower_char <$> chars s).

Fixpoint lstrip_chars (l : list Ascii.ascii) : list Ascii.ascii :=
  match l with
  | c :: l' => if isspace c then lstrip_chars l' else l
  | [] => []
  end.

(** [s.strip()] *)
Definition strip (s : string) : string :=
  of_chars (reverse (lstrip_chars (reverse (lstrip_chars (chars s))))).

(** [s.startswith(p)] *)
Definition startswith (s p : string) : bool := String.prefix p s.

(** [sub in s] *)
Fixpoint contains (sub s : string) : bool :=
  String.prefix sub s ||
  match s with
  | String _ s' => contains sub s'
  | EmptyString => false
  end.

(** [s.replace(a, b)] for one-character [a] and [b] *)
Definition replace_char (a b : Ascii.ascii) (s : string) : string :=
  of_chars ((λ c, if Ascii.eqb c a then b else c) <$> chars s).

Definition nonempty (s : string) : bool := negb (String.eqb s "").

Definition newline : string := String (Ascii.ascii_of_nat 10) "".
Definition dquote : Ascii.ascii := Ascii.ascii_of_nat 34.
Definition squote : Ascii.ascii := Ascii.ascii_of_nat 39.
Definition underscore : Ascii.ascii := Ascii.ascii_of_nat 95.
Definition quoted (s : string) : string :=
  String dquote s +:+ String dquote "".

(** The image glyph U+1F4F7, as its UTF-8 bytes. *)
Definition camera : string :=
  of_chars (Ascii.ascii_of_nat <$> [240; 159; 147; 183]).

(** The arrow U+2192 and the check mark U+2705, as their UTF-8 bytes. *)
Definition arrow : string := of_chars (Ascii.ascii_of_nat <$> [226; 134; 146]).
Definition check_mark : string := of_chars (Ascii.ascii_of_nat <$> [226; 156; 133]).

(** ** Records produced by the extraction *)

Inductive shape_info : Type := ShapeInfo {
  text : string;
  name : string;
  id : value;
  type : string;
  sub_shapes : list shape_info;
  connections : list (string * string);
  has_image : bool
}.

Record media_item : Type := MediaItem {
  index : value;
  data : value;
  source : string
}.

Record page_data : Type := PageData {
  page_name : string;
  shapes : list shape_info;
  page_connections : list (string * string);
  images_count : nat;
  page_media : list media_item
}.

(** ** Example objects *)

Definition plain (v : value) : member := Has (Plain v).
Definition make_object (members : list (string * member)) : object :=
  list_to_map members.
Definition make_heap (objects : list (nat * object)) : heap :=
  list_to_map objects.

(** A [str] for opaque values that shows none of their content. *)
Definition no_repr : value → string := λ _, "<object>".

Definition image_bytes : value := VBytes [Byte.x89; Byte.x50; Byte.x4e; Byte.x47].

(** A shape that is its own child. *)
Definition cyclic_heap : heap :=
  make_heap
    [(1, make_object [("text", plain (VStr "loop"));
                      ("shapes", plain (VList [VRef 1]))])].

(** A parent whose only child has nothing but the identifier 0. *)
Definition zero_id_heap : heap :=
  make_heap
    [(1, make_object [("text", plain (VStr "parent"));
                      ("shapes", plain (VList [VRef 2]))]);
     (2, make_object [("id", plain (VInt 0))])].

(** A connector joined from shape 1 to shape 2 whose [one_d] property
    raises. *)
Definition faulty_connector_heap : heap :=
  make_heap
    [(1, make_object [("connects", plain (VList [VRef 2])); ("one_d", Faulty)]);
     (2, make_object [("from_shape", plain (VRef 3)); ("to_shape", plain (VRef 4))]);
     (3, make_object [("ID", plain (VInt 1))]);
     (4, make_object [("ID", plain (VStr "2"))])].

(** A page (object 0) with one page-level image and two shapes: a picture,
    and a group whose only image is in its sub-shape. *)
Definition page_heap : heap :=
  make_heap
    [(0, make_object [("name", plain (VStr "Page-1"));
                      ("media", plain (VList [image_bytes]));
                      ("shapes", plain (VList [VRef 1; VRef 2]))]);
     (1, make_object [("text", plain (VStr "picture")); ("ID", plain (VInt 1));
                      ("image_data", plain image_bytes)]);
     (2, make_object [("text", plain (VStr "group")); ("ID", plain (VInt 2));
                      ("shapes", plain (VList [VRef 3]))]);
     (3, make_object [("ID", plain (VInt 3)); ("image", plain image_bytes)])].

(** A shape whose text has white space on both sides. *)
Definition padded_text_heap : heap :=
  make_heap [(1, make_object [("text", plain (VStr "  Start here  "))])].

(** [faulty_connector_heap] with a page (object 0) that holds the
    connector. *)
Definition connector_page_heap : heap :=
  <[0 := make_object [("shapes", plain (VList [VRef 1]))]]> faulty_connector_heap.

(** A page whose name is the empty string. *)
Definition unnamed_page_heap : heap :=
  make_heap [(0, make_object [("name", plain (VStr ""))])].

(** A document (object 10) with application properties (object 11) and
    three pages: the page of [page_heap], a page (object 12) whose getter of
    shapes raises, and a page (object 13) without members. *)
Definition document_heap : heap :=
  <[10 := make_object [("app_properties", plain (VRef 11));
                       ("pages", plain (VList [VRef 0; VRef 12; VRef 13]))]]>
  (<[11 := make_object [("title", plain (VStr "Plan"));
                        ("creator", plain VNone)]]>
  (<[12 := make_object [("name", plain (VStr "Broken")); ("shapes", Faulty)]]>
  (<[13 := make_object []]> page_heap))).

(** A record with a text and an identifier and nothing else, as in the
    examples of the test suite. *)
Definition text_shape (shape_id text : string) : shape_info :=
  ShapeInfo text "" (VStr shape_id) "" [] [] false.

Definition example_page : page_data :=
  PageData "Page-1"
    [text_shape "1" "Start"; text_shape "2" "Process"; text_shape "3" "End"]
    [("1", "2"); ("2", "3")] 0 [].

(** A shape that has an identifier and nothing else, and one that has a
    type and nothing else. *)
Definition id_only_shape : shape_info := ShapeInfo "" "" (VInt 7) "" [] [] false.
Definition type_only_shape : shape_info :=
  ShapeInfo "" "" VNone "Rectangle" [] [] false.

Definition page_of (shapes : list shape_info) : page_data :=
  PageData "Page-1" shapes [] 0 [].

Section Converter.

(** [str(v)] for a container, a byte string or an object is decided by code
    outside the converter (the classes' [__str__] and [__repr__]). *)
Context (ostr : value → string).

(** [str(v)], which is also what an f-string puts for [{v}]. *)
Definition py_str (v : value) : string :=
  match v with
  | VNone => "None"
  | VBool true => "True"
  | VBool false => "False"
  | VInt n => pretty n
  | VStr s => s
  | _ => ostr v
  end.

(** ** [_get_attribute_value] *)

(** The body of the [try]: [Some v] when it reaches a [return v]. *)
Definition attribute_try (h : heap) (obj : value) (attr_name : string)
    : exc (option value) :=
  present ← hasattr h obj attr_name;
  if present : bool then
    attr ← getattr h obj attr_name;
    if callable attr then v ← call attr; Ok (Some v)
    else match attr with Plain v => Ok (Some v) | Callable _ => Raise end
  else Ok None.

Definition _get_attribute_value (h : heap) (obj : value) (attr_name : string)
    (default : value) : exc value :=
  returned ← try_except (attribute_try h obj attr_name) (Ok None);
  match returned with
  | Some v => Ok v
  | None => Ok default
  end.

(** ** [_get_shapes_from_object] *)

Definition shapes_candidate (h : heap) (obj : value) (shapes : list value)
    (attr_name : string) : exc (list value) :=
  present ← hasattr h obj attr_name;
  if present : bool then
    attr ← getattr h obj attr_name;
    if callable attr then
      try_except
        (result ← call attr;
         if truthy result
         then Ok (shapes ++ match result with VList l => l | _ => [result] end)
         else Ok shapes)
        (Ok shapes)
    else
      match attr with
      | Plain v =>
          if is_None v then Ok shapes
          else try_except
                 (items ← match v with VList l => Ok l | _ => iterate v end;
                  Ok (shapes ++ items))
                 (Ok shapes)
      | Callable _ => Raise
      end
  else Ok shapes.

Definition _get_shapes_from_object (h : heap) (obj : value) : exc (list value) :=
  foldl (λ acc attr_name, shapes ← acc; shapes_candidate h obj shapes attr_name)
        (Ok []) ["shapes"; "child_shapes"; "sub_shapes"].


(** ** [_extract_connections] *)

(** One round of the scan of [connects]: the two identifiers are variables
    of the enclosing function, overwritten independently of each other. *)
Definition connect_step (h : heap) (ids : value * value) (connect : value)
    : exc (value * value) :=
  from_shape ← _get_attribute_value h connect "from_shape" VNone;
  to_shape ← _get_attribute_value h connect "to_shape" VNone;
  from_id ← (if truthy from_shape
             then _get_attribute_value h from_shape "ID" VNone
             else Ok ids.1);
  to_id ← (if truthy to_shape
           then _get_attribute_value h to_shape "ID" VNone
           else Ok ids.2);
  Ok (from_id, to_id).

(** [if from_id and to_id: connections.append((str(from_id), str(to_id)))] *)
Definition id_pair (ids : value * value) : list (string * string) :=
  if truthy ids.1 && truthy ids.2 then [(py_str ids.1, py_str ids.2)] else [].

Definition scan_connects (h : heap) (connects : list value) : exc (value * value) :=
  foldl (λ acc connect, ids ← acc; connect_step h ids connect)
        (Ok (VNone, VNone)) connects.

(** What the block guarded by [hasattr(shape, 'connects')] appends. *)
Definition strategy_a (h : heap) (shape : value) : exc (list (string * string)) :=
  present ← hasattr h shape "connects";
  if present : bool then
    connects ← _get_attribute_value h shape "connects" (VList []);
    if truthy connects then
      items ← iterate connects;
      ids ← scan_connects h items;
      Ok (id_pair ids)
    else Ok []
  else Ok [].

(** What the block guarded by [hasattr(shape, 'one_d') or
    hasattr(shape, 'OneD')] appends. *)
Definition strategy_b (h : heap) (shape : value) : exc (list (string * string)) :=
  one_d ← hasattr h shape "one_d";
  marked ← (if one_d : bool then Ok true else hasattr h shape "OneD");
  if marked : bool then
    begin_shape ← _get_attribute_value h shape "begin_shape" VNone;
    end_shape ← _get_attribute_value h shape "end_shape" VNone;
    if truthy begin_shape && truthy end_shape then
      from_id ← _get_attribute_value h begin_shape "ID" VNone;
      to_id ← _get_attribute_value h end_shape "ID" VNone;
      Ok (id_pair (from_id, to_id))
    else Ok []
  else Ok [].

(** The body of the [try]: the list as the body leaves it, and whether the
    body raised. *)
Definition connections_try (h : heap) (shape : value)
    : list (string * string) * exc () :=
  appended [strategy_a h shape; strategy_b h shape].

Definition _extract_connections (h : heap) (shape : value)
    : exc (list (string * string)) :=
  Ok (connections_try h shape).1.

(** ** [_extract_media_from_page] *)

Definition enumerate {A} (l : list A) : list (nat * A) := zip (seq 0 (length l)) l.

Definition media_of (src : string) (collection : value) (dicts : bool)
    : list media_item :=
  match collection with
  | VList l =>
      (λ p, MediaItem (VInt (Z.of_nat p.1)) p.2 src) <$> enumerate l
  | VDict d =>
      if dicts then (λ p, MediaItem p.1 p.2 src) <$> d else []
  | _ => []
  end.

Definition media_method (h : heap) (page : value) (attr_name src : string)
    (dicts : bool) : exc (list media_item) :=
  present ← hasattr h page attr_name;
  if present : bool then
    media ← _get_attribute_value h page attr_name VNone;
    if truthy media then Ok (media_of src media dicts) else Ok []
  else Ok [].

Definition filename_method (h : heap) (page : value) : exc (list media_item) :=
  present ← hasattr h page "filename";
  if present : bool then
    _ ← _get_attribute_value h page "filename" VNone; Ok []
  else Ok [].

Definition _extract_media_from_page (h : heap) (page : value) : exc (list media_item) :=
  Ok (appended [media_method h page "media" "page.media" true;
                media_method h page "images" "page.images" false;
                filename_method h page]).1.

(** ** [_extract_image_from_shape] *)

(** [if hasattr(obj, n): x = get(obj, n); if x: return x] *)
Definition image_attribute (h : heap) (obj : value) (attr_name : string)
    : exc (option value) :=
  present ← hasattr h obj attr_name;
  if present : bool then
    found ← _get_attribute_value h obj attr_name VNone;
    Ok (if truthy found then Some found else None)
  else Ok None.

Definition image_of_master (h : heap) (shape : value) : exc (option value) :=
  present ← hasattr h shape "master_shape";
  if present : bool then
    master ← _get_attribute_value h shape "master_shape" VNone;
    if truthy master then image_attribute h master "image_data" else Ok None
  else Ok None.

Definition image_of_fill (h : heap) (shape : value) : exc (option value) :=
  present ← hasattr h shape "fill";
  if present : bool then
    fill ← _get_attribute_value h shape "fill" VNone;
    if truthy fill then image_attribute h fill "image" else Ok None
  else Ok None.

(** [if cell_name in cells: cell_value = cells[cell_name]]: nothing is
    returned, but either operation can raise. *)
Definition cell_lookup (cells : value) (cell_name : string) : exc () :=
  match cells with
  | VDict _ => Ok ()
  | VList l =>
      if existsb (λ x, match x with VStr s => String.eqb s cell_name | _ => false end) l
      then Raise else Ok ()
  | VStr s => if contains cell_name s then Raise else Ok ()
  | _ => Raise
  end.

Definition inspect_cells (h : heap) (shape : value) : exc (option value) :=
  present ← hasattr h shape "cells";
  if present : bool then
    cells ← _get_attribute_value h shape "cells" VNone;
    if truthy cells then
      _ ← foldl (λ acc cell_name, _ ← acc; cell_lookup cells cell_name)
                (Ok ()) ["FillForegnd"; "FillBkgnd"; "FillPattern"];
      Ok None
    else Ok None
  else Ok None.

Definition image_try (h : heap) (shape : value) : exc (option value) :=
  first_return
    [ (_ ← _get_attribute_value h shape "ID" VNone; Ok None);
      image_attribute h shape "image_data";
      image_attribute h shape "image";
      image_attribute h shape "file";
      image_of_master h shape;
      image_of_fill h shape;
      inspect_cells h shape ].

Definition _extract_image_from_shape (h : heap) (shape : value) : exc value :=
  returned ← try_except (image_try h shape) (Ok None);
  match returned with
  | Some image => Ok image
  | None => Ok VNone
  end.

(** ** [_extract_shape_info] *)

(** The test that guards [shape_info["sub_shapes"].append(sub_info)]. *)
Definition retained (sub_info : shape_info) : bool :=
  nonempty (text sub_info) || nonempty (name sub_info) ||
  match sub_shapes sub_info with [] => false | _ => true end ||
  has_image sub_info || truthy (id sub_info).

Definition master_type (h : heap) (shape : value) : exc string :=
  try_except
    (master ← _get_attribute_value h shape "master_shape" VNone;
     if truthy master then
       master_name ← _get_attribute_value h master "name" VNone;
       Ok (if truthy master_name then py_str master_name else "")
     else Ok "")
    (Ok "").

(** Everything up to the comment [# Extract sub-shapes recursively]. *)
Definition shape_fields (h : heap) (shape : value) : exc shape_info :=
  text_value ← _get_attribute_value h shape "text" (VStr "");
  name_value ← _get_attribute_value h shape "name" (VStr "");
  upper_id ← _get_attribute_value h shape "ID" VNone;
  shape_id ← (if truthy upper_id then Ok upper_id
              else _get_attribute_value h shape "id" VNone);
  type_name ← master_type h shape;
  conns ← _extract_connections h shape;
  image_data ← _extract_image_from_shape h shape;
  Ok {| text := strip (py_str text_value);
        name := py_str name_value;
        id := shape_id;
        type := type_name;
        sub_shapes := [];
        connections := conns;
        has_image := truthy image_data |}.

Definition with_sub_shapes (info : shape_info) (subs : list shape_info) : shape_info :=
  {| text := text info; name := name info; id := id info; type := type info;
     sub_shapes := subs; connections := connections info;
     has_image := has_image info |}.

(** The [try] around the loop over the children; [recurse] is the call
    [self._extract_shape_info(sub_shape, depth + 1)]. *)
Definition sub_shapes_try (h : heap) (recurse : value → exc shape_info)
    (shape : value) : list shape_info * exc () :=
  match _get_shapes_from_object h shape with
  | Ok children =>
      for_each (λ kept sub_shape,
                  sub_info ← recurse sub_shape;
                  Ok (if retained sub_info then kept ++ [sub_info] else kept))
               children []
  | Raise => ([], Raise)
  end.

Equations? _extract_shape_info (h : heap) (shape : value) (depth : nat)
    : exc shape_info by wf (5 - depth) lt :=
  _extract_shape_info h shape depth with decide (depth < 5) := {
    | left _ =>
        info ← shape_fields h shape;
        Ok (with_sub_shapes info
              (sub_shapes_try h (λ sub_shape, _extract_shape_info h sub_shape (depth + 1))
                              shape).1)
    | right _ => shape_fields h shape }.
Proof. lia. Qed.

(** ** [_extract_page_data] *)

(** The body of the loop after the record is extracted; extending by an
    empty list of connections changes nothing, so the test on it is left
    out. *)
Definition add_shape (pd : page_data) (info : shape_info) : page_data :=
  {| page_name := page_name pd;
     shapes := shapes pd ++ [info];
     page_connections := page_connections pd ++ connections info;
     images_count := if has_image info then images_count pd + 1 else images_count pd;
     page_media := page_media pd |}.

Definition page_shape_step (h : heap) (pd : page_data) (shape : value) : exc page_data :=
  try_except
    (info ← _extract_shape_info h shape 0; Ok (add_shape pd info))
    (Ok pd).

(** [if page_media: page_data["page_media"] = page_media;
    page_data["images_count"] += len(page_media)] *)
Definition add_media (pd : page_data) (media : list media_item) : page_data :=
  match media with
  | [] => pd
  | _ :: _ =>
      {| page_name := page_name pd;
         shapes := shapes pd;
         page_connections := page_connections pd;
         images_count := images_count pd + length media;
         page_media := media |}
  end.

Definition _extract_page_data (h : heap) (page : value) : exc page_data :=
  name_value ← _get_attribute_value h page "name" (VStr "Unnamed Page");
  media ← _extract_media_from_page h page;
  shapes_to_process ← _get_shapes_from_object h page;
  foldl (λ acc shape, pd ← acc; page_shape_step h pd shape)
        (Ok (add_media
               {| page_name := if truthy name_value then py_str name_value
                               else "Unnamed Page";
                  shapes := [];
                  page_connections := [];
                  images_count := 0;
                  page_media := [] |}
               media))
        shapes_to_process.

(** ** [_sanitize_mermaid_id] *)

Definition sanitize_char (c : Ascii.ascii) : Ascii.ascii :=
  if isalnum c then c else underscore.

Definition _sanitize_mermaid_id (text : string) (shape_id : value) : string :=
  if nonempty text then
    of_chars (take 50 (sanitize_char <$> chars text))
  else if truthy shape_id then "shape_" +:+ py_str shape_id
  else "unknown".

(** ** [_generate_mermaid_diagram] *)

(** The label of a shape: its text, or [Image_<id>] when it has no text but
    has an image. *)
Definition label_of (shape : shape_info) : string :=
  if negb (nonempty (text shape)) && has_image shape
  then "Image_" +:+ py_str (id shape)
  else text shape.

Definition map_sub_shape (shape : shape_info) (shape_map : gmap string string)
    (sub_shape : shape_info) : gmap string string :=
  if nonempty (text sub_shape)
  then <[py_str (id shape) +:+ "_" +:+ text sub_shape := text sub_shape]> shape_map
  else shape_map.

Definition map_shape (shape_map : gmap string string) (shape : shape_info)
    : gmap string string :=
  foldl (map_sub_shape shape)
        (if truthy (id shape) && nonempty (label_of shape)
         then <[py_str (id shape) := label_of shape]> shape_map
         else shape_map)
        (sub_shapes shape).

Definition page_image_line (idx : nat) : string :=
  "    page_image_" +:+ pretty idx +:+ "[" +:+
  quoted (camera +:+ " Page Image " +:+ pretty (idx + 1)) +:+ "]".

Definition node_line (node_id : string) (shape : shape_info) : string :=
  "    " +:+ node_id +:+ "[" +:+
  quoted (replace_char dquote squote (label_of shape) +:+
          (if has_image shape then " " +:+ camera else "")) +:+ "]".

(** One round of the loop that declares the nodes; the state is [lines]
    and [added_nodes]. *)
Definition add_node (st : list string * gset string) (shape : shape_info)
    : list string * gset string :=
  if nonempty (label_of shape) && truthy (id shape) then
    let node_id := _sanitize_mermaid_id (label_of shape) (id shape) in
    if bool_decide (node_id ∈ st.2) then st
    else (st.1 ++ [node_line node_id shape], {[node_id]} ∪ st.2)
  else st.

Definition edge_line (from_node to_node : string) : string :=
  "    " +:+ from_node +:+ " --> " +:+ to_node.

Definition connection_lines (shape_map : gmap string string)
    (connection : string * string) : list string :=
  match shape_map !! connection.1, shape_map !! connection.2 with
  | Some from_text, Some to_text =>
      [edge_line (_sanitize_mermaid_id from_text (VStr connection.1))
                 (_sanitize_mermaid_id to_text (VStr connection.2))]
  | _, _ => []
  end.

Definition is_setup (t : string) : bool :=
  contains "setup" t || startswith t "0" || startswith t "1".
Definition is_staging (t : string) : bool :=
  contains "staging" t || startswith t "2".
Definition is_finalization (t : string) : bool :=
  contains "finalization" t || startswith t "3".

(** The three lists [setup_shapes], [staging_shapes], [finalization_shapes]. *)
Record buckets : Type := Buckets {
  setup_shapes : list shape_info;
  staging_shapes : list shape_info;
  finalization_shapes : list shape_info
}.

Definition classify (b : buckets) (shape : shape_info) : buckets :=
  let t := lower (text shape) in
  if is_setup t then
    Buckets (setup_shapes b ++ [shape]) (staging_shapes b) (finalization_shapes b)
  else if is_staging t then
    Buckets (setup_shapes b) (staging_shapes b ++ [shape]) (finalization_shapes b)
  else if is_finalization t then
    Buckets (setup_shapes b) (staging_shapes b) (finalization_shapes b ++ [shape])
  else b.

Definition group_shapes (shapes : list shape_info) : buckets :=
  foldl classify (Buckets [] [] []) shapes.

(** [if src and dst: for s in src[:1]: for t in dst[:1]: ...] *)
Definition flow_lines (src dst : list shape_info) : list string :=
  match src, dst with
  | s :: _, t :: _ =>
      if nonempty (text s) && nonempty (text t)
      then [edge_line (_sanitize_mermaid_id (text s) (id s))
                      (_sanitize_mermaid_id (text t) (id t))]
      else []
  | _, _ => []
  end.

Definition inferred_lines (shapes : list shape_info) : list string :=
  let b := group_shapes shapes in
  flow_lines (setup_shapes b) (staging_shapes b) ++
  flow_lines (staging_shapes b) (finalization_shapes b).

Definition diagram_lines (pd : page_data) : list string :=
  let shape_map := foldl map_shape ∅ (shapes pd) in
  ["```mermaid"; "graph TD"] ++
  (page_image_line <$> seq 0 (length (page_media pd))) ++
  (foldl add_node ([], ∅) (shapes pd)).1 ++
  (match page_connections pd with
   | _ :: _ =>
       [""; "    %% Connections"] ++
       concat (connection_lines shape_map <$> page_connections pd)
   | [] =>
       [""; "    %% Hierarchical structure (inferred)"] ++
       inferred_lines (shapes pd)
   end) ++
  ["```"].

Definition _generate_mermaid_diagram (pd : page_data) : string :=
  String.concat newline (diagram_lines pd).

(** ** [_to_markdown] *)

Record document : Type := Document {
  file_name : string;
  pages : list page_data;
  metadata : list (string * value);
  total_images : nat
}.

Definition upper_char (c : Ascii.ascii) : Ascii.ascii :=
  if in_range 97 122 c then Ascii.ascii_of_N (Ascii.N_of_ascii c - 32) else c.

Definition is_letter (c : Ascii.ascii) : bool :=
  in_range 65 90 c || in_range 97 122 c.

Fixpoint title_chars (after_letter : bool) (l : list Ascii.ascii) : list Ascii.ascii :=
  match l with
  | [] => []
  | c :: l' =>
      (if after_letter then lower_char c else upper_char c)
        :: title_chars (is_letter c) l'
  end.

(** [s.title()] *)
Definition title (s : string) : string := of_chars (title_chars false (chars s)).

Definition metadata_lines (d : document) : list string :=
  if existsb (λ kv, truthy kv.2) (metadata d) then
    ["## Metadata" +:+ newline] ++
    concat ((λ kv, if truthy kv.2
                   then ["- **" +:+ title kv.1 +:+ "**: " +:+ py_str kv.2]
                   else []) <$> metadata d) ++
    [""]
  else [].

(** The test that guards the block of one shape in the detailed listing. *)
Definition shown (shape : shape_info) : bool :=
  nonempty (text shape) || nonempty (name shape) || nonempty (type shape) ||
  match sub_shapes shape with [] => false | _ => true end ||
  has_image shape.

Definition sub_shape_bullet (sub_shape : shape_info) : list string :=
  if nonempty (text sub_shape) || has_image sub_shape
  then ["  - " +:+ text sub_shape +:+
        (if has_image sub_shape then " " +:+ camera else "")]
  else [].

(** The lines of one shape's block, numbered [shape_num]. *)
Definition shape_block (shape_num : nat) (shape : shape_info) : list string :=
  ["##### Shape " +:+ pretty shape_num] ++
  (if nonempty (type shape) then ["- **Type**: " +:+ type shape] else []) ++
  (if nonempty (name shape) then ["- **Name**: " +:+ name shape] else []) ++
  (if nonempty (text shape) then ["- **Text**: " +:+ strip (text shape)] else []) ++
  (if is_None (id shape) then [] else ["- **ID**: " +:+ py_str (id shape)]) ++
  (if has_image shape then ["- **Contains Image**: " +:+ check_mark +:+ " Yes"] else []) ++
  (match sub_shapes shape with
   | [] => []
   | subs => ["- **Sub-shapes**: " +:+ pretty (length subs)] ++
             concat (sub_shape_bullet <$> subs)
   end) ++
  [""].

(** One round of the loop over [page['shapes']]; the state is [markdown]
    and [shape_num]. *)
Definition detail_step (st : list string * nat) (shape : shape_info)
    : list string * nat :=
  if shown shape
  then (st.1 ++ shape_block (st.2 + 1) shape, st.2 + 1)
  else st.

Definition no_content_notice : string :=
  "*No shapes with content found on this page*" +:+ newline.
Definition no_shapes_notice : string :=
  "*No shapes found on this page*" +:+ newline.

(** The lines appended under the comment [# Detailed shape information]. *)
Definition detail_lines (pd : page_data) : list string :=
  match shapes pd with
  | [] => [no_shapes_notice]
  | _ :: _ =>
      let st := foldl detail_step ([], 0) (shapes pd) in
      ["#### Detailed Shape Information" +:+ newline;
       "**Total shapes**: " +:+ pretty (length (shapes pd)) +:+ newline] ++
      st.1 ++
      (if st.2 =? 0 then [no_content_notice] else [])
  end.

Definition media_lines (pd : page_data) : list string :=
  match page_media pd with
  | [] => []
  | items =>
      ["#### Page-Level Media (" +:+ pretty (length items) +:+ " items)" +:+ newline] ++
      concat ((λ p : nat * media_item,
                 ["**Media Item " +:+ pretty (p.1 + 1) +:+ "** (Source: " +:+
                  source p.2 +:+ ")"; ""]) <$> enumerate items)
  end.

Definition connection_summary (pd : page_data) : list string :=
  match page_connections pd with
  | [] => []
  | conns =>
      ["#### Connections (" +:+ pretty (length conns) +:+ " total)" +:+ newline] ++
      ((λ c : string * string,
          "- Shape " +:+ c.1 +:+ " " +:+ arrow +:+ " Shape " +:+ c.2) <$> conns) ++
      [""]
  end.

Definition page_lines (idx : nat) (pd : page_data) : list string :=
  ["### Page " +:+ pretty idx +:+ ": " +:+ page_name pd +:+ newline] ++
  (if 0 <? images_count pd
   then ["**Images found on this page**: " +:+ pretty (images_count pd) +:+ newline]
   else []) ++
  media_lines pd ++
  (match shapes pd, page_media pd with
   | [], [] => []
   | _, _ => ["#### Diagram" +:+ newline; _generate_mermaid_diagram pd; ""]
   end) ++
  connection_summary pd ++
  detail_lines pd.

Definition _to_markdown (d : document) : string :=
  String.concat newline
    (["# " +:+ file_name d +:+ newline] ++
     metadata_lines d ++
     ["**Total Images Found**: " +:+ pretty (total_images d) +:+ newline;
      "## Pages (" +:+ pretty (length (pages d)) +:+ " total)" +:+ newline] ++
     concat ((λ p : nat * page_data, page_lines (p.1 + 1) p.2) <$> enumerate (pages d))).


(** ** Notions used to state the properties *)

(** The value [_get_attribute_value] returns. *)
Definition attribute_value (h : heap) (obj : value) (attr_name : string)
    (default : value) : value :=
  match find_member h obj attr_name with
  | Some (Has (Plain v)) => v
  | Some (Has (Callable (Ok v))) => v
  | _ => default
  end.

(** The retention test in the words of the specification: text, name,
    sub-shapes, image, or an id that is not absent. *)
Definition observable (info : shape_info) : bool :=
  nonempty (text info) || nonempty (name info) ||
  match sub_shapes info with [] => false | _ => true end ||
  has_image info || negb (is_None (id info)).

(** The children the loop of [_extract_shape_info] visits: none when
    [_get_shapes_from_object] raises. *)
Definition children (h : heap) (shape : value) : list value :=
  match _get_shapes_from_object h shape with
  | Ok l => l
  | Raise => []
  end.

(** [subs] are the records of the values [kids], normalised at [depth]. *)
Definition normalised (h : heap) (depth : nat) (kids : list value)
    (subs : list shape_info) : Prop :=
  Forall2 (λ kid sub, _extract_shape_info h kid depth = Ok sub) kids subs.

(** The identifier the scan of [connects] ends with for one end
    ([end_name] is [from_shape] or [to_shape]): the [ID] probed on that end
    of the last entry in which the end is truthy, [None] when there is no
    such entry. *)
Definition last_endpoint_id (h : heap) (end_name : string)
    (connects : list value) : value :=
  match last (List.filter (λ c, truthy (attribute_value h c end_name VNone))
                          connects) with
  | Some c => attribute_value h (attribute_value h c end_name VNone) "ID" VNone
  | None => VNone
  end.

(** ** Notions used to state further properties *)

(** What one candidate name adds to the list of
    [_get_shapes_from_object] when its lookup does not raise. *)
Definition candidate_items (h : heap) (obj : value) (attr_name : string)
    : list value :=
  match find_member h obj attr_name with
  | Some (Has (Plain v)) =>
      if is_None v then []
      else match v with
           | VList l => l
           | _ => match iterate v with Ok items => items | Raise => [] end
           end
  | Some (Has (Callable (Ok result))) =>
      if truthy result
      then match result with VList l => l | _ => [result] end
      else []
  | _ => []
  end.

Definition candidate_names : list string :=
  ["shapes"; "child_shapes"; "sub_shapes"].

(** The member [attr_name] of [obj] holds the list [l]: as a plain attribute,
    as the result of a method, or (for the empty list) by being absent. *)
Definition holds_list (h : heap) (obj : value) (attr_name : string)
    (l : list value) : Prop :=
  find_member h obj attr_name = Some (Has (Plain (VList l))) ∨
  find_member h obj attr_name = Some (Has (Callable (Ok (VList l)))) ∨
  (find_member h obj attr_name = None ∧ l = []).

(** The number of levels of sub-shapes below a record. *)
Fixpoint height (info : shape_info) : nat :=
  match info with
  | ShapeInfo _ _ _ _ subs _ _ =>
      foldr (λ sub n, Nat.max (S (height sub)) n) 0 subs
  end.

(** Every record below [info], at any level, passes the retention test. *)
Fixpoint pruned (info : shape_info) : bool :=
  match info with
  | ShapeInfo _ _ _ _ subs _ _ =>
      forallb (λ sub, retained sub && pruned sub) subs
  end.

(** The probes of [_extract_image_from_shape] before the inspection of
    the cells. *)
Definition image_probes (h : heap) (shape : value) : list (exc (option value)) :=
  [ (_ ← _get_attribute_value h shape "ID" VNone; Ok None);
    image_attribute h shape "image_data";
    image_attribute h shape "image";
    image_attribute h shape "file";
    image_of_master h shape;
    image_of_fill h shape ].

(** [l.strip()] on the list of the characters. *)
Definition strip_chars (l : list Ascii.ascii) : list Ascii.ascii :=
  reverse (lstrip_chars (reverse (lstrip_chars l))).

(** A shape gets a node when its label is not empty and its id is truthy. *)
Definition eligible (shape : shape_info) : bool :=
  nonempty (label_of shape) && truthy (id shape).

(** The node identifier of a shape. *)
Definition node_id_of (shape : shape_info) : string :=
  _sanitize_mermaid_id (label_of shape) (id shape).

(** An identifier of the diagram language as the sanitiser makes it: not
    empty, at most 50 characters, alphanumeric characters and underscores
    only. *)
Definition well_formed_id (s : string) : Prop :=
  s ≠ "" ∧ String.length s ≤ 50 ∧
  Forall (λ c, isalnum c = true ∨ c = underscore) (chars s).

(** The end of an edge names a shape that has a node, or the text of a
    sub-shape. *)
Definition resolves (shapes : list shape_info) (node : string) : Prop :=
  (∃ s, s ∈ shapes ∧ eligible s = true ∧ node = node_id_of s) ∨
  (∃ s sub, s ∈ shapes ∧ sub ∈ sub_shapes s ∧ nonempty (text sub) = true ∧
            node = _sanitize_mermaid_id (text sub) (id sub)).

(** ** [convert] *)

(** The library that reads the file is outside the converter.  [convert]
    is given what it answers: whether the library can be imported, whether
    the path exists, the suffix and the name of the path, and what opening
    the file gives, the document object or a failure.  Leaving the [with]
    block is taken not to fail. *)

(** An attribute handed on without being called.  A method is an object
    without members of its own, at a reference outside the heap. *)
Definition attribute_object (h : heap) (a : attribute) : value :=
  match a with
  | Plain v => v
  | Callable _ => VRef (fresh (dom h))
  end.

(** [getattr(obj, attr_name, default)] *)
Definition getattr_default (h : heap) (obj : value) (attr_name : string)
    (default : value) : exc value :=
  match find_member h obj attr_name with
  | None => Ok default
  | Some Faulty => Raise
  | Some (Has a) => Ok (attribute_object h a)
  end.

(** The body of the [try] that reads the metadata. *)
Definition metadata_try (h : heap) (vis : value) : exc (list (string * value)) :=
  present ← hasattr h vis "app_properties";
  if present : bool then
    app ← getattr h vis "app_properties";
    title_value ← getattr_default h (attribute_object h app) "title" (VStr "");
    creator ← getattr_default h (attribute_object h app) "creator" (VStr "");
    company ← getattr_default h (attribute_object h app) "company" (VStr "");
    Ok [("title", title_value); ("creator", creator); ("company", company)]
  else Ok [].

(** [pages = vis.pages; if callable(pages): pages = pages()], and the
    items the loop over it visits. *)
Definition document_pages (h : heap) (vis : value) : exc (list value) :=
  pages ← getattr h vis "pages";
  pages ← (if callable pages then call pages
           else Ok (attribute_object h pages));
  iterate pages.

(** One round of the loop over the pages; the state is [result["pages"]]
    and [result["total_images"]]. *)
Definition convert_page_step (h : heap) (st : list page_data * nat)
    (page : value) : exc (list page_data * nat) :=
  try_except
    (pd ← _extract_page_data h page;
     Ok (st.1 ++ [pd], st.2 + images_count pd))
    (Ok st).

(** The body of the [with] block up to the choice of the format. *)
Definition read_document (h : heap) (name : string) (vis : value) : exc document :=
  metadata_read ← try_except (metadata_try h vis) (Ok []);
  items ← document_pages h vis;
  st ← foldl (λ acc page, st ← acc; convert_page_step h st page)
             (Ok ([], 0)) items;
  Ok {| file_name := name; pages := st.1; metadata := metadata_read;
        total_images := st.2 |}.

Inductive conversion : Type :=
| Markdown (md : string)
| Json (result : document)
| Both (md : string) (result : document).

Definition in_format (output_format : string) (d : document) : conversion :=
  if String.eqb (lower output_format) "markdown" then Markdown (_to_markdown d)
  else if String.eqb (lower output_format) "json" then Json d
  else Both (_to_markdown d) d.

(** The exceptions [convert] raises; both kinds of [ValueError] are told
    apart by their message. *)
Inductive convert_error : Type :=
| ImportError
| FileNotFoundError
| ValueError_unsupported_format
| ValueError_reading_file.

Definition convert (vsdx_installed file_exists : bool) (suffix name : string)
    (visio_file : exc value) (h : heap) (output_format : string)
    : convert_error + conversion :=
  if negb vsdx_installed then inl ImportError
  else if negb file_exists then inl FileNotFoundError
  else if negb (String.eqb (lower suffix) ".vsdx")
  then inl ValueError_unsupported_format
  else match (vis ← visio_file;
              d ← read_document h name vis;
              Ok (in_format output_format d)) with
       | Ok r => inr r
       | Raise => inl ValueError_reading_file
       end.

(** No getter of the three collections of the page raises. *)
Definition readable_page (h : heap) (page : value) : bool :=
  forallb (λ attr_name,
             match find_member h page attr_name with
             | Some Faulty => false
             | _ => true
             end)
          candidate_names.

(** * Properties *)

Lemma bind_Ok {A B} (a : A) (f : A → exc B) : (Ok a ≫= f) = f a.
Proof. reflexivity. Qed.

Lemma bind_Raise {A B} (f : A → exc B) : (Raise ≫= f) = Raise.
Proof. reflexivity. Qed.

(** ** The accessor *)

Lemma get_attribute_value_eq h obj attr_name default :
  _get_attribute_value h obj attr_name default
  = Ok (attribute_value h obj attr_name default).
Proof.
  unfold _get_attribute_value, attribute_try, attribute_value, hasattr, getattr.
  destruct (find_member h obj attr_name) as [[[v|[v|]]|]|]; reflexivity.
Qed.

(** C7: the accessor never raises; an absent member, a failing lookup and a
    failing call give the default, a callable member is called and its result
    returned, and any other member is returned as it is. *)
Theorem get_attribute_value_never_raises h obj attr_name default :
  _get_attribute_value h obj attr_name default ≠ Raise ∧
  match find_member h obj attr_name with
  | None => _get_attribute_value h obj attr_name default = Ok default
  | Some Faulty =>
      hasattr h obj attr_name = Raise ∧
      _get_attribute_value h obj attr_name default = Ok default
  | Some (Has (Callable Raise)) =>
      _get_attribute_value h obj attr_name default = Ok default
  | Some (Has (Callable (Ok v))) =>
      _get_attribute_value h obj attr_name default = Ok v
  | Some (Has (Plain v)) =>
      _get_attribute_value h obj attr_name default = Ok v
  end.
Proof.
  rewrite get_attribute_value_eq. split; [discriminate|].
  unfold attribute_value, hasattr.
  destruct (find_member h obj attr_name) as [[[v|[v|]]|]|]; auto.
Qed.


(** ** The shape normaliser *)

Lemma master_type_ok h shape : ∃ ty, master_type h shape = Ok ty.
Proof.
  unfold master_type. rewrite get_attribute_value_eq. cbn.
  destruct (truthy _); [rewrite get_attribute_value_eq|]; cbn; eauto.
Qed.

Lemma extract_image_ok h shape :
  ∃ img, _extract_image_from_shape h shape = Ok img.
Proof.
  unfold _extract_image_from_shape.
  destruct (image_try h shape) as [[v|]|]; cbn; eauto.
Qed.

Lemma shape_fields_eq h shape :
  ∃ ty img,
    master_type h shape = Ok ty ∧
    _extract_image_from_shape h shape = Ok img ∧
    shape_fields h shape =
      Ok {| text := strip (py_str (attribute_value h shape "text" (VStr "")));
            name := py_str (attribute_value h shape "name" (VStr ""));
            id := py_or (attribute_value h shape "ID" VNone)
                        (attribute_value h shape "id" VNone);
            type := ty;
            sub_shapes := [];
            connections := (connections_try h shape).1;
            has_image := truthy img |}.
Proof.
  destruct (master_type_ok h shape) as [ty Hty].
  destruct (extract_image_ok h shape) as [img Himg].
  exists ty, img. split; [done|]. split; [done|].
  unfold shape_fields, _extract_connections, py_or.
  rewrite !get_attribute_value_eq. cbn.
  destruct (truthy (attribute_value h shape "ID" VNone));
    rewrite ?get_attribute_value_eq; cbn; rewrite Hty; cbn; rewrite Himg; done.
Qed.

Lemma extract_shape_info_total h shape depth :
  ∃ info, _extract_shape_info h shape depth = Ok info.
Proof.
  destruct (shape_fields_eq h shape) as (ty & img & _ & _ & Hf).
  simp _extract_shape_info.
  destruct (decide (depth < 5)); cbn; rewrite Hf; cbn; eauto.
Qed.

Lemma normalised_exists h depth kids : ∃ subs, normalised h depth kids subs.
Proof.
  induction kids as [|kid kids [subs IH]]; [by exists []; constructor|].
  destruct (extract_shape_info_total h kid depth) as [sub Hsub].
  exists (sub :: subs). by constructor.
Qed.

Lemma for_each_normalised h depth kids subs kept :
  normalised h depth kids subs →
  for_each (λ kept sub_shape,
              sub_info ← _extract_shape_info h sub_shape depth;
              Ok (if retained sub_info then kept ++ [sub_info] else kept))
           kids kept
  = (kept ++ List.filter retained subs, Ok ()).
Proof.
  intros Hn. revert kept.
  induction Hn as [|kid sub kids subs Hkid _ IH]; intros kept; cbn.
  - by rewrite app_nil_r.
  - rewrite Hkid. cbn. rewrite IH.
    destruct (retained sub); cbn; [by rewrite <-app_assoc|done].
Qed.

Lemma extract_shape_info_unfold h shape depth :
  ∃ fields subs,
    shape_fields h shape = Ok fields ∧
    normalised h (depth + 1) (children h shape) subs ∧
    _extract_shape_info h shape depth =
      Ok (with_sub_shapes fields
            (if decide (depth < 5)
             then List.filter retained subs else [])).
Proof.
  destruct (shape_fields_eq h shape) as (ty & img & _ & _ & Hf).
  destruct (normalised_exists h (depth + 1) (children h shape)) as [subs Hsubs].
  eexists _, subs. split; [exact Hf|]. split; [exact Hsubs|].
  simp _extract_shape_info.
  destruct (decide (depth < 5)); cbn; rewrite Hf; cbn; [|done].
  do 2 f_equal. unfold sub_shapes_try, children in *.
  destruct (_get_shapes_from_object h shape) as [kids|].
  - by rewrite (for_each_normalised _ _ _ _ _ Hsubs).
  - by inversion Hsubs.
Qed.


(** C1: at depth 5 the record has no sub-shapes, whatever children the
    shape has; at a depth below 5 the sub-shapes are the retained records of
    the children, each normalised one level deeper; and the normaliser
    returns a record for every heap, shape and depth, cyclic child graphs
    included. *)
Theorem depth_limit h shape :
  (∃ info, _extract_shape_info h shape 5 = Ok info ∧ sub_shapes info = []) ∧
  (∀ depth, depth < 5 →
     ∃ info subs,
       _extract_shape_info h shape depth = Ok info ∧
       normalised h (depth + 1) (children h shape) subs ∧
       sub_shapes info = List.filter retained subs) ∧
  (∀ depth, ∃ info, _extract_shape_info h shape depth = Ok info).
Proof.
  split; [|split].
  - destruct (extract_shape_info_unfold h shape 5) as (f & subs & _ & _ & ->).
    eexists. split; [done|]. by rewrite decide_False by lia.
  - intros depth Hd.
    destruct (extract_shape_info_unfold h shape depth) as (f & subs & _ & Hn & ->).
    eexists _, subs. split; [done|]. split; [done|]. by rewrite decide_True.
  - intros depth. apply extract_shape_info_total.
Qed.

(** ** The page aggregator *)

Lemma page_steps_eq h kids recs pd :
  normalised h 0 kids recs →
  foldl (λ acc shape, pd ← acc; page_shape_step h pd shape) (Ok pd) kids
  = Ok (foldl add_shape pd recs).
Proof.
  intros Hn. revert pd.
  induction Hn as [|kid rec kids recs Hkid _ IH]; intros pd; [done|].
  cbn. unfold page_shape_step at 2. rewrite Hkid. cbn. apply IH.
Qed.

Lemma add_shapes_shapes pd recs :
  shapes (foldl add_shape pd recs) = shapes pd ++ recs.
Proof.
  revert pd. induction recs as [|r recs IH]; intros pd; cbn.
  - by rewrite app_nil_r.
  - rewrite IH. cbn. by rewrite <-app_assoc.
Qed.

Lemma add_shapes_media pd recs :
  page_media (foldl add_shape pd recs) = page_media pd.
Proof. revert pd. induction recs as [|r recs IH]; intros pd; cbn; [done|by rewrite IH]. Qed.

Lemma add_shapes_count pd recs :
  images_count (foldl add_shape pd recs)
  = images_count pd + length (List.filter has_image recs).
Proof.
  revert pd. induction recs as [|r recs IH]; intros pd; cbn; [lia|].
  rewrite IH. cbn. destruct (has_image r); cbn; lia.
Qed.

Lemma extract_page_data_eq h page :
  match _get_shapes_from_object h page with
  | Ok kids =>
      ∃ pd0 recs,
        normalised h 0 kids recs ∧
        shapes pd0 = [] ∧ images_count pd0 = length (page_media pd0) ∧
        _extract_page_data h page = Ok (foldl add_shape pd0 recs)
  | Raise => _extract_page_data h page = Raise
  end.
Proof.
  unfold _extract_page_data, _extract_media_from_page.
  rewrite get_attribute_value_eq, !bind_Ok.
  destruct (_get_shapes_from_object h page) as [kids|]; [|done].
  destruct (normalised_exists h 0 kids) as [recs Hrecs].
  eexists _, recs. split; [done|].
  rewrite bind_Ok, (page_steps_eq _ _ _ _ Hrecs).
  split_and!; [| |reflexivity]; by destruct (appended _).1.
Qed.


(** C2 (amended): below depth 5 a child record is in its parent's
    [sub_shapes] exactly when it is the record of a child and has text, a
    name, sub-shapes, an image or a truthy id (an id that is None, 0 or empty
    does not count); what is kept has observable content, and what has
    observable content and is dropped has a falsy id that is not None.  The
    shapes of a page are the records of all of its top-level shapes. *)
Theorem sub_shapes_retention h shape depth page :
  (∃ info subs,
     _extract_shape_info h shape depth = Ok info ∧
     normalised h (depth + 1) (children h shape) subs ∧
     (depth < 5 →
      sub_shapes info = List.filter retained subs ∧
      ∀ sub, sub ∈ sub_shapes info ↔ sub ∈ subs ∧ retained sub = true)) ∧
  (∀ sub, retained sub = true → observable sub = true) ∧
  (∀ sub, observable sub = true → retained sub = false →
     truthy (id sub) = false ∧ id sub ≠ VNone) ∧
  match _get_shapes_from_object h page with
  | Ok kids =>
      ∃ pd, _extract_page_data h page = Ok pd ∧ normalised h 0 kids (shapes pd)
  | Raise => _extract_page_data h page = Raise
  end.
Proof.
  split_and!.
  - destruct (extract_shape_info_unfold h shape depth) as (f & subs & _ & Hn & ->).
    eexists _, subs. split_and!; [done..|]. intros Hd.
    rewrite decide_True by done. cbn. split; [done|]. intros sub.
    rewrite !list_elem_of_In, filter_In. done.
  - intros sub. unfold retained, observable.
    destruct (id sub); cbn; rewrite ?orb_false_r, ?orb_true_r; done.
  - intros sub. unfold retained, observable.
    destruct (nonempty _), (nonempty _), (sub_shapes sub), (has_image sub);
      cbn; try done; destruct (id sub); cbn; intros ? ?; done.
  - pose proof (extract_page_data_eq h page) as Hp.
    destruct (_get_shapes_from_object h page) as [kids|]; [|done].
    destruct Hp as (pd0 & recs & Hn & Hs & _ & ->).
    eexists. split; [done|]. by rewrite add_shapes_shapes, Hs.
Qed.

Lemma has_image_own h shape depth info :
  _extract_shape_info h shape depth = Ok info →
  ∃ img, _extract_image_from_shape h shape = Ok img ∧ has_image info = truthy img.
Proof.
  intros Hi.
  destruct (extract_shape_info_unfold h shape depth) as (f & subs & Hf & _ & Heq).
  destruct (shape_fields_eq h shape) as (ty & img & _ & Himg & Hf').
  rewrite Hf' in Hf. injection Hf as <-. rewrite Heq in Hi. injection Hi as <-.
  by exists img.
Qed.

(** C5: the image count of a page is the number of its page-level media
    items plus the number of its top-level shapes that have an image, and a
    top-level shape has an image when the image probe of that shape itself
    finds one: the images of its sub-shapes are not counted. *)
Theorem images_count_spec h page pd :
  _extract_page_data h page = Ok pd →
  images_count pd
  = length (page_media pd) + length (List.filter has_image (shapes pd)) ∧
  ∃ kids,
    _get_shapes_from_object h page = Ok kids ∧
    Forall2 (λ kid info,
               ∃ img, _extract_image_from_shape h kid = Ok img ∧
                      has_image info = truthy img)
            kids (shapes pd).
Proof.
  intros Hpd. pose proof (extract_page_data_eq h page) as Hp.
  destruct (_get_shapes_from_object h page) as [kids|]; [|congruence].
  destruct Hp as (pd0 & recs & Hn & Hs & Hc & Heq).
  rewrite Hpd in Heq. injection Heq as ->.
  rewrite add_shapes_count, add_shapes_media, add_shapes_shapes, Hs, Hc.
  split; [done|]. exists kids. split; [done|]. cbn.
  eapply Forall2_impl; [exact Hn|]. intros kid info. apply has_image_own.
Qed.

(** ** The connection extractor *)

Lemma scan_connects_from h connects ids :
  foldl (λ acc connect, ids ← acc; connect_step h ids connect) (Ok ids) connects
  = Ok (match last (List.filter (λ c, truthy (attribute_value h c "from_shape" VNone))
                                connects) with
        | Some c => attribute_value h (attribute_value h c "from_shape" VNone) "ID" VNone
        | None => ids.1
        end,
        match last (List.filter (λ c, truthy (attribute_value h c "to_shape" VNone))
                                connects) with
        | Some c => attribute_value h (attribute_value h c "to_shape" VNone) "ID" VNone
        | None => ids.2
        end).
Proof.
  revert ids. induction connects as [|c cs IH]; intros [f t]; [done|].
  cbn [foldl List.filter]. rewrite bind_Ok. unfold connect_step at 2.
  rewrite !get_attribute_value_eq, !bind_Ok.
  destruct (truthy (attribute_value h c "from_shape" VNone));
    destruct (truthy (attribute_value h c "to_shape" VNone));
    rewrite ?get_attribute_value_eq, ?bind_Ok, IH, ?last_cons; cbn [fst snd];
    repeat match goal with |- context [last ?l] => destruct (last l) end; done.
Qed.

Lemma scan_connects_eq h connects :
  scan_connects h connects
  = Ok (last_endpoint_id h "from_shape" connects,
        last_endpoint_id h "to_shape" connects).
Proof. unfold scan_connects. by rewrite scan_connects_from. Qed.

Lemma truthy_not_None v : truthy v = true → v ≠ VNone.
Proof. by intros Hv ->. Qed.

(** C3 (amended): the extractor never raises.  Strategy A scans every entry
    of the connects collection, keeps for each end the identifier of the last
    entry whose end is set, and appends the one pair of their strings when
    both identifiers are truthy, hence not absent; its pair precedes
    Strategy B's.  A failure is caught and leaves what was appended before
    it: nothing when Strategy A fails, Strategy A's pair when Strategy B
    fails. *)
Theorem extract_connections_spec h shape :
  _extract_connections h shape =
    Ok (match strategy_a h shape with
        | Raise => []
        | Ok a => a ++ match strategy_b h shape with Ok b => b | Raise => [] end
        end) ∧
  (∀ items,
     hasattr h shape "connects" = Ok true →
     truthy (attribute_value h shape "connects" (VList [])) = true →
     iterate (attribute_value h shape "connects" (VList [])) = Ok items →
     strategy_a h shape =
       Ok (id_pair (last_endpoint_id h "from_shape" items,
                    last_endpoint_id h "to_shape" items))) ∧
  (∀ ids, length (id_pair ids) ≤ 1 ∧
          ∀ p, p ∈ id_pair ids →
               p = (py_str ids.1, py_str ids.2) ∧ ids.1 ≠ VNone ∧ ids.2 ≠ VNone).
Proof.
  split_and!.
  - unfold _extract_connections, connections_try. cbn [appended].
    destruct (strategy_a h shape) as [a|]; [|done].
    destruct (strategy_b h shape) as [b|]; cbn; by rewrite ?app_nil_r.
  - intros items Hhas Htrue Hitems. unfold strategy_a.
    rewrite Hhas, bind_Ok, get_attribute_value_eq, bind_Ok, Htrue, Hitems, bind_Ok.
    by rewrite scan_connects_eq.
  - intros [f t]. unfold id_pair. cbn [fst snd].
    destruct (truthy f) eqn:Hf, (truthy t) eqn:Ht; cbn; split; try lia;
      intros p Hp; try by apply elem_of_nil in Hp.
    apply list_elem_of_singleton in Hp as ->. eauto using truthy_not_None.
Qed.

(** ** Failures inside the steps of the normaliser *)




(** ** Identifier sanitisation *)

Lemma chars_of_chars l : chars (of_chars l) = l.
Proof. apply String.list_ascii_of_string_of_list_ascii. Qed.

Lemma length_of_chars l : String.length (of_chars l) = length l.
Proof. unfold of_chars. induction l as [|c l IH]; cbn; [done|by rewrite IH]. Qed.

Lemma length_chars s : length (chars s) = String.length s.
Proof. unfold chars. induction s as [|c s IH]; cbn; [done|by rewrite IH]. Qed.

Lemma nonempty_true s : s ≠ "" → nonempty s = true.
Proof. intros Hs. unfold nonempty. by apply negb_true_iff, String.eqb_neq. Qed.

(** C4: for a non-empty text the identifier has the length of the text cut
    at 50, so at most 50, is made of alphanumeric characters and underscores
    only, and has at each position the character of the text if that is
    alphanumeric and one underscore if not; for an empty text and a usable
    (truthy) identifier it is [shape_] followed by the identifier; for an
    empty text and no usable identifier it is [unknown]. *)
Theorem sanitize_mermaid_id_spec text shape_id :
  (text ≠ "" →
     String.length (_sanitize_mermaid_id text shape_id)
       = Nat.min (String.length text) 50 ∧
     String.length (_sanitize_mermaid_id text shape_id) ≤ 50 ∧
     Forall (λ c, isalnum c = true ∨ c = underscore)
            (chars (_sanitize_mermaid_id text shape_id)) ∧
     ∀ i c, i < 50 → chars text !! i = Some c →
            chars (_sanitize_mermaid_id text shape_id) !! i
            = Some (if isalnum c then c else underscore)) ∧
  (truthy shape_id = true →
     _sanitize_mermaid_id "" shape_id = "shape_" +:+ py_str shape_id) ∧
  (truthy shape_id = false → _sanitize_mermaid_id "" shape_id = "unknown") ∧
  _sanitize_mermaid_id "" VNone = "unknown".
Proof.
  split_and!; [|by intros H; unfold _sanitize_mermaid_id; cbn; rewrite H..|done].
  intros Hne. unfold _sanitize_mermaid_id. rewrite (nonempty_true _ Hne).
  rewrite length_of_chars, chars_of_chars, length_take, length_fmap, length_chars.
  split_and!; [lia|lia| |].
  - apply Forall_take, Forall_fmap, Forall_forall. intros c _. cbn.
    unfold sanitize_char. destruct (isalnum c) eqn:Hc; auto.
  - intros i c Hi Hc. rewrite lookup_take_lt by done.
    by rewrite list_lookup_fmap, Hc.
Qed.

(** ** The diagram renderer *)

(** C8: the page of the example renders to a block with the three node
    lines of Start, Process and End and the two edge lines
    [Start --> Process] and [Process --> End], and no other node or edge
    line. *)
Theorem example_diagram :
  _generate_mermaid_diagram example_page =
    String.concat newline
      ["```mermaid"; "graph TD";
       "    Start[" +:+ quoted "Start" +:+ "]";
       "    Process[" +:+ quoted "Process" +:+ "]";
       "    End[" +:+ quoted "End" +:+ "]";
       "";
       "    %% Connections";
       "    Start --> Process";
       "    Process --> End";
       "```"] ∧
  List.filter (contains "[") (diagram_lines example_page) =
    ["    Start[" +:+ quoted "Start" +:+ "]";
     "    Process[" +:+ quoted "Process" +:+ "]";
     "    End[" +:+ quoted "End" +:+ "]"] ∧
  List.filter (contains "-->") (diagram_lines example_page) =
    ["    Start --> Process"; "    Process --> End"] ∧
  _sanitize_mermaid_id "Start" (VStr "1") = "Start" ∧
  _sanitize_mermaid_id "Process" (VStr "2") = "Process" ∧
  _sanitize_mermaid_id "End" (VStr "3") = "End".
Proof. repeat split. Qed.

Lemma group_shapes_from shapes b :
  foldl classify b shapes =
    Buckets
      (setup_shapes b ++
         List.filter (λ s, is_setup (lower (text s))) shapes)
      (staging_shapes b ++
         List.filter (λ s, negb (is_setup (lower (text s))) &&
                           is_staging (lower (text s))) shapes)
      (finalization_shapes b ++
         List.filter (λ s, negb (is_setup (lower (text s))) &&
                           negb (is_staging (lower (text s))) &&
                           is_finalization (lower (text s))) shapes).
Proof.
  revert b. induction shapes as [|s shapes IH]; intros [b1 b2 b3]; cbn.
  - by rewrite !app_nil_r.
  - rewrite IH. unfold classify. cbn.
    destruct (is_setup _), (is_staging _), (is_finalization _); cbn;
      by rewrite <-?app_assoc.
Qed.

(** C10: the three buckets are the shapes that pass the setup test, those
    that fail it and pass the staging test, and those that fail both and pass
    the finalization test, each in page order; so no shape is in two buckets,
    a shape that passes the setup test is in neither of the other two, and
    one that passes the staging test is not in the finalization bucket. *)
Theorem buckets_exclusive shapes :
  setup_shapes (group_shapes shapes) =
    List.filter (λ s, is_setup (lower (text s))) shapes ∧
  staging_shapes (group_shapes shapes) =
    List.filter (λ s, negb (is_setup (lower (text s))) &&
                      is_staging (lower (text s))) shapes ∧
  finalization_shapes (group_shapes shapes) =
    List.filter (λ s, negb (is_setup (lower (text s))) &&
                      negb (is_staging (lower (text s))) &&
                      is_finalization (lower (text s))) shapes ∧
  ∀ s,
    (is_setup (lower (text s)) = true →
       (s ∉ staging_shapes (group_shapes shapes)) ∧
       (s ∉ finalization_shapes (group_shapes shapes))) ∧
    (is_staging (lower (text s)) = true →
       s ∉ finalization_shapes (group_shapes shapes)) ∧
    (s ∈ setup_shapes (group_shapes shapes) →
       (s ∉ staging_shapes (group_shapes shapes)) ∧
       (s ∉ finalization_shapes (group_shapes shapes))) ∧
    (s ∈ staging_shapes (group_shapes shapes) →
       s ∉ finalization_shapes (group_shapes shapes)).
Proof.
  unfold group_shapes. rewrite group_shapes_from. cbn.
  split_and!; [done..|]. intros s.
  rewrite !list_elem_of_In, !filter_In.
  destruct (is_setup _), (is_staging _), (is_finalization _); cbn;
    intuition congruence.
Qed.

(** ** The detailed listing of the report *)

Lemma detail_steps_from shapes lines n :
  foldl detail_step (lines, n) shapes =
    (lines ++ concat (imap (λ i shape, shape_block (n + i + 1) shape)
                           (List.filter shown shapes)),
     n + length (List.filter shown shapes)).
Proof.
  revert lines n. induction shapes as [|s shapes IH]; intros lines n.
  - cbn. by rewrite app_nil_r, Nat.add_0_r.
  - cbn [foldl List.filter]. unfold detail_step at 2. cbn [fst snd].
    destruct (shown s); rewrite IH; [|done].
    rewrite imap_cons. cbn [concat length].
    rewrite <-app_assoc, Nat.add_0_r. f_equal; [|lia]. do 3 f_equal.
    apply imap_ext. intros i x _. cbn [compose]. f_equal. lia.
Qed.

(** C9 (amended): the detailed listing of a page with shapes has one block,
    numbered from 1 in page order, for exactly the shapes that have a text,
    a name, a type, sub-shapes or an image (the id is not part of the test,
    the type is), and the notice that no shape has content when there is no
    such shape. *)
Theorem detail_lines_spec pd :
  detail_lines pd =
    match shapes pd with
    | [] => [no_shapes_notice]
    | _ :: _ =>
        ["#### Detailed Shape Information" +:+ newline;
         "**Total shapes**: " +:+ pretty (length (shapes pd)) +:+ newline] ++
        concat (imap (λ i shape, shape_block (i + 1) shape)
                     (List.filter shown (shapes pd))) ++
        match List.filter shown (shapes pd) with
        | [] => [no_content_notice]
        | _ :: _ => []
        end
    end.
Proof.
  unfold detail_lines. destruct (shapes pd) as [|s l] eqn:Hs; [done|].
  rewrite detail_steps_from. cbn [fst snd app]. do 3 f_equal.
  destruct (List.filter shown (s :: l)); done.
Qed.

(** ** The collection of the children *)

Lemma shapes_candidate_eq h obj shapes attr_name :
  shapes_candidate h obj shapes attr_name =
    match find_member h obj attr_name with
    | Some Faulty => Raise
    | _ => Ok (shapes ++ candidate_items h obj attr_name)
    end.
Proof.
  unfold shapes_candidate, candidate_items, hasattr, getattr.
  destruct (find_member h obj attr_name) as [[[v|[r|]]|]|]; cbn;
    rewrite ?app_nil_r; try done.
  - destruct v; cbn; rewrite ?app_nil_r; done.
  - destruct (truthy r); cbn; rewrite ?app_nil_r; done.
Qed.

Lemma get_shapes_eq h obj :
  _get_shapes_from_object h obj =
    match find_member h obj "shapes", find_member h obj "child_shapes",
          find_member h obj "sub_shapes" with
    | Some Faulty, _, _ | _, Some Faulty, _ | _, _, Some Faulty => Raise
    | _, _, _ =>
        Ok (candidate_items h obj "shapes" ++
            candidate_items h obj "child_shapes" ++
            candidate_items h obj "sub_shapes")
    end.
Proof.
  unfold _get_shapes_from_object. cbn [foldl].
  rewrite bind_Ok, !shapes_candidate_eq.
  destruct (find_member h obj "shapes") as [[?|]|]; [|done|];
    rewrite bind_Ok, shapes_candidate_eq;
    (destruct (find_member h obj "child_shapes") as [[?|]|]; [|done|]);
    rewrite bind_Ok, shapes_candidate_eq;
    (destruct (find_member h obj "sub_shapes") as [[?|]|]; [|done|]);
    by rewrite ?app_nil_l, <-?app_assoc.
Qed.

Lemma candidate_items_holds h obj attr_name l :
  holds_list h obj attr_name l → candidate_items h obj attr_name = l.
Proof.
  unfold candidate_items. intros [->|[->|[-> ->]]]; [done| |done].
  by destruct l.
Qed.

Lemma get_shapes_Raise h obj :
  _get_shapes_from_object h obj = Raise ↔
  ∃ attr_name, attr_name ∈ candidate_names ∧
               find_member h obj attr_name = Some Faulty.
Proof.
  rewrite get_shapes_eq. unfold candidate_names. split.
  - destruct (find_member h obj "shapes") as [[?|]|] eqn:H1;
      [|exists "shapes"; split; [set_solver|done]|];
      (destruct (find_member h obj "child_shapes") as [[?|]|] eqn:H2;
        [|exists "child_shapes"; split; [set_solver|done]|]);
      (destruct (find_member h obj "sub_shapes") as [[?|]|] eqn:H3;
        [|exists "sub_shapes"; split; [set_solver|done]|]); done.
  - intros (n & Hn & Hf).
    repeat (apply elem_of_cons in Hn as [->|Hn]; [rewrite Hf|]);
      [..|by apply elem_of_nil in Hn];
      repeat match goal with
             | |- context [match find_member ?a ?b ?c with _ => _ end] =>
                 destruct (find_member a b c) as [[?|]|]
             end; done.
Qed.

(** X1: the collection of the children raises exactly when the getter of
    one of the three probed names raises: that lookup is outside every
    [try] of the function. *)
Theorem get_shapes_raises_iff h obj :
  _get_shapes_from_object h obj = Raise ↔
  ∃ attr_name, attr_name ∈ candidate_names ∧
               find_member h obj attr_name = Some Faulty.
Proof. apply get_shapes_Raise. Qed.

(** X2: lists held under the three names, as attributes or as results of
    methods, are merged in the order shapes, child_shapes, sub_shapes, each
    in its own order and without removing duplicates. *)
Theorem get_shapes_merges h obj l1 l2 l3 :
  holds_list h obj "shapes" l1 →
  holds_list h obj "child_shapes" l2 →
  holds_list h obj "sub_shapes" l3 →
  _get_shapes_from_object h obj = Ok (l1 ++ l2 ++ l3).
Proof.
  intros H1 H2 H3. rewrite get_shapes_eq.
  rewrite (candidate_items_holds _ _ _ _ H1), (candidate_items_holds _ _ _ _ H2),
    (candidate_items_holds _ _ _ _ H3).
  destruct H1 as [->|[->|[-> _]]], H2 as [->|[->|[-> _]]],
    H3 as [->|[->|[-> _]]]; done.
Qed.

(** ** Bounds on the connections of a shape *)





(** ** The media of a page *)

Lemma filename_method_cases h page :
  filename_method h page = Ok [] ∨ filename_method h page = Raise.
Proof.
  unfold filename_method.
  destruct (hasattr h page "filename") as [[|]|]; cbn; auto.
  rewrite get_attribute_value_eq. auto.
Qed.

Lemma extract_media_eq h page :
  _extract_media_from_page h page =
    Ok (match media_method h page "media" "page.media" true with
        | Raise => []
        | Ok m =>
            m ++ match media_method h page "images" "page.images" false with
                 | Ok i => i
                 | Raise => []
                 end
        end).
Proof.
  unfold _extract_media_from_page. cbn [appended]. f_equal.
  destruct (media_method h page "media" "page.media" true) as [m|]; [|done].
  destruct (media_method h page "images" "page.images" false) as [i|]; [|by rewrite app_nil_r].
  by destruct (filename_method_cases h page) as [-> | ->]; cbn; rewrite ?app_nil_r.
Qed.

Lemma media_method_holds h page attr_name src dicts l :
  holds_list h page attr_name l →
  media_method h page attr_name src dicts = Ok (media_of src (VList l) dicts).
Proof.
  unfold media_method, hasattr.
  intros [H|[H|[H ->]]]; rewrite H; cbn; [| |done];
    rewrite get_attribute_value_eq; unfold attribute_value; rewrite H;
    by destruct l.
Qed.

Lemma enumerate_from {A B} (f : nat → A → B) (l : list A) n :
  (λ p, f p.1 p.2) <$> zip (seq n (length l)) l = imap (λ k x, f (n + k) x) l.
Proof.
  revert n f. induction l as [|x l IH]; intros n f; [done|].
  cbn. rewrite Nat.add_0_r. f_equal. rewrite IH. apply imap_ext.
  intros k y _. cbn. f_equal. lia.
Qed.

Lemma media_of_list src l dicts :
  media_of src (VList l) dicts
  = imap (λ k x, MediaItem (VInt (Z.of_nat k)) x src) l.
Proof.
  unfold media_of, enumerate.
  by rewrite (enumerate_from (λ k x, MediaItem (VInt (Z.of_nat k)) x src) l 0).
Qed.

(** X4: when the page holds a list under media and a list under images, the
    media items are one per element, those of media first, each with its
    position in its own list as index, the element as data and the name of
    its collection as source; the filename member plays no part. *)
Theorem page_media_of_lists h page lm li :
  holds_list h page "media" lm →
  holds_list h page "images" li →
  _extract_media_from_page h page =
    Ok (imap (λ k x, MediaItem (VInt (Z.of_nat k)) x "page.media") lm ++
        imap (λ k x, MediaItem (VInt (Z.of_nat k)) x "page.images") li).
Proof.
  intros Hm Hi. rewrite extract_media_eq.
  rewrite (media_method_holds _ _ _ _ _ _ Hm), (media_method_holds _ _ _ _ _ _ Hi).
  by rewrite !media_of_list.
Qed.

(** X5: a dictionary under media gives one item per entry, with the key as
    index; a dictionary under images gives nothing. *)
Theorem page_media_of_dicts h page dm di :
  hasattr h page "media" = Ok true →
  attribute_value h page "media" VNone = VDict dm →
  hasattr h page "images" = Ok true →
  attribute_value h page "images" VNone = VDict di →
  _extract_media_from_page h page =
    Ok ((λ kv, MediaItem kv.1 kv.2 "page.media") <$> dm).
Proof.
  intros Hm Hvm Hi Hvi. rewrite extract_media_eq. unfold media_method.
  rewrite Hm, Hi, !bind_Ok, !get_attribute_value_eq, !bind_Ok, Hvm, Hvi.
  destruct dm, di; cbn; by rewrite ?app_nil_r.
Qed.

(** X6: the media extraction never raises.  A getter of media that raises
    gives no item at all, also when images holds some; a getter of images
    that raises leaves the items found under media. *)
Theorem page_media_failures h page :
  ∃ items,
    _extract_media_from_page h page = Ok items ∧
    (find_member h page "media" = Some Faulty → items = []) ∧
    (∀ lm, holds_list h page "media" lm →
           find_member h page "images" = Some Faulty →
           items = imap (λ k x, MediaItem (VInt (Z.of_nat k)) x "page.media") lm).
Proof.
  eexists. split; [apply extract_media_eq|]. split.
  - intros H. unfold media_method at 1, hasattr. by rewrite H.
  - intros lm Hm Hi. rewrite (media_method_holds _ _ _ _ _ _ Hm), media_of_list.
    unfold media_method, hasattr. rewrite Hi, bind_Raise.
    by rewrite app_nil_r.
Qed.

(** ** The image probe *)

Lemma image_attribute_truthy h obj attr_name v :
  image_attribute h obj attr_name = Ok (Some v) → truthy v = true.
Proof.
  unfold image_attribute.
  destruct (hasattr h obj attr_name) as [[|]|]; cbn; [|done..].
  rewrite get_attribute_value_eq, bind_Ok.
  destruct (truthy _) eqn:Ht; [|done]. by intros [= <-].
Qed.

Lemma image_of_master_truthy h shape v :
  image_of_master h shape = Ok (Some v) → truthy v = true.
Proof.
  unfold image_of_master.
  destruct (hasattr h shape "master_shape") as [[|]|]; cbn; [|done..].
  rewrite get_attribute_value_eq, bind_Ok.
  destruct (truthy _); [apply image_attribute_truthy|done].
Qed.

Lemma image_of_fill_truthy h shape v :
  image_of_fill h shape = Ok (Some v) → truthy v = true.
Proof.
  unfold image_of_fill.
  destruct (hasattr h shape "fill") as [[|]|]; cbn; [|done..].
  rewrite get_attribute_value_eq, bind_Ok.
  destruct (truthy _); [apply image_attribute_truthy|done].
Qed.

Lemma inspect_cells_cases h shape :
  inspect_cells h shape = Ok None ∨ inspect_cells h shape = Raise.
Proof.
  unfold inspect_cells.
  destruct (hasattr h shape "cells") as [[|]|]; cbn; auto.
  rewrite get_attribute_value_eq, bind_Ok.
  destruct (truthy _); auto.
  match goal with
  | |- ?steps ≫= _ = _ ∨ _ => destruct steps
  end; cbn; auto.
Qed.

Lemma first_return_last {A} (steps : list (exc (option A))) last_step :
  last_step = Ok None ∨ last_step = Raise →
  try_except (first_return (steps ++ [last_step])) (Ok None)
  = try_except (first_return steps) (Ok None).
Proof.
  intros Hl. induction steps as [|step steps IH]; cbn.
  - by destruct Hl as [-> | ->].
  - destruct step as [[a|]|]; cbn; [done| |done]. apply IH.
Qed.

Lemma extract_image_eq h shape :
  _extract_image_from_shape h shape =
    match first_return (image_probes h shape) with
    | Ok (Some image) => Ok image
    | _ => Ok VNone
    end.
Proof.
  unfold _extract_image_from_shape.
  change (image_try h shape)
    with (first_return (image_probes h shape ++ [inspect_cells h shape])).
  rewrite (first_return_last _ _ (inspect_cells_cases h shape)).
  by destruct (first_return (image_probes h shape)) as [[?|]|].
Qed.

(** X7: the image probe never raises, and what it returns is either None or
    a truthy value: a shape has an image exactly when the probe returns
    something else than None. *)
Theorem extract_image_none_or_truthy h shape :
  ∃ image,
    _extract_image_from_shape h shape = Ok image ∧
    (image = VNone ∨ truthy image = true) ∧
    (truthy image = true ↔ image ≠ VNone).
Proof.
  rewrite extract_image_eq. unfold image_probes. cbn [first_return].
  rewrite get_attribute_value_eq, !bind_Ok.
  assert (∀ v, truthy v = true →
            (v = VNone ∨ truthy v = true) ∧ (truthy v = true ↔ v ≠ VNone)) as Hv.
  { intros v Hv. split; [by right|]. split; [by intros _ ->|done]. }
  assert ((VNone = VNone ∨ truthy VNone = true) ∧
          (truthy VNone = true ↔ VNone ≠ VNone)) as Hn.
  { split; [by left|]. split; done. }
  destruct (image_attribute h shape "image_data") as [[v|]|] eqn:H1; cbn;
    [eauto using image_attribute_truthy| |eauto].
  destruct (image_attribute h shape "image") as [[v|]|] eqn:H2; cbn;
    [eauto using image_attribute_truthy| |eauto].
  destruct (image_attribute h shape "file") as [[v|]|] eqn:H3; cbn;
    [eauto using image_attribute_truthy| |eauto].
  destruct (image_of_master h shape) as [[v|]|] eqn:H4; cbn;
    [eauto using image_of_master_truthy| |eauto].
  destruct (image_of_fill h shape) as [[v|]|] eqn:H5; cbn;
    [eauto using image_of_fill_truthy|eauto..].
Qed.

(** X8: the direct members are tried in the order image_data, image, file:
    when every member before one of them gives nothing, a truthy value of
    that member is the result, whatever the members after it are, and a
    getter of that member that raises ends the probe with None, whatever the
    members after it hold. *)
Theorem extract_image_order h shape before attr_name after :
  ["image_data"; "image"; "file"] = before ++ attr_name :: after →
  Forall (λ n, image_attribute h shape n = Ok None) before →
  (∀ image, image_attribute h shape attr_name = Ok (Some image) →
            _extract_image_from_shape h shape = Ok image) ∧
  (find_member h shape attr_name = Some Faulty →
     _extract_image_from_shape h shape = Ok VNone).
Proof.
  intros Hnames Hbefore.
  assert (find_member h shape attr_name = Some Faulty →
          image_attribute h shape attr_name = Raise) as Hf.
  { intros H. unfold image_attribute, hasattr. by rewrite H. }
  rewrite extract_image_eq. unfold image_probes. cbn [first_return].
  rewrite get_attribute_value_eq, !bind_Ok.
  destruct before as [|b1 [|b2 [|b3 before]]]; simplify_eq/=.
  - split; [intros image ->; done|intros H; by rewrite (Hf H)].
  - apply Forall_cons in Hbefore as [-> _]. cbn.
    split; [intros image ->; done|intros H; by rewrite (Hf H)].
  - apply Forall_cons in Hbefore as [-> Hb]. apply Forall_cons in Hb as [-> _].
    cbn. split; [intros image ->; done|intros H; by rewrite (Hf H)].
  - by destruct before.
Qed.

Lemma find_member_cells h r o m obj attr_name :
  attr_name ≠ "cells" →
  find_member (<[r := <["cells" := m]> o]> h) obj attr_name
  = find_member (<[r := delete "cells" o]> h) obj attr_name.
Proof.
  intros Hn. destruct obj as [| | | | | | |r']; try done. cbn.
  destruct (decide (r = r')) as [->|Hr].
  - rewrite !lookup_insert_eq. cbn.
    by rewrite lookup_insert_ne, lookup_delete_ne.
  - by rewrite !lookup_insert_ne.
Qed.

Lemma get_attribute_value_cells h r o m obj attr_name default :
  attr_name ≠ "cells" →
  _get_attribute_value (<[r := <["cells" := m]> o]> h) obj attr_name default
  = _get_attribute_value (<[r := delete "cells" o]> h) obj attr_name default.
Proof.
  intros Hn. rewrite !get_attribute_value_eq. unfold attribute_value.
  by rewrite find_member_cells.
Qed.

Lemma image_attribute_cells h r o m obj attr_name :
  attr_name ≠ "cells" →
  image_attribute (<[r := <["cells" := m]> o]> h) obj attr_name
  = image_attribute (<[r := delete "cells" o]> h) obj attr_name.
Proof.
  intros Hn. unfold image_attribute, hasattr.
  rewrite find_member_cells by done.
  destruct (find_member _ obj attr_name) as [[?|]|]; cbn; [|done..].
  by rewrite get_attribute_value_cells.
Qed.

Lemma image_of_master_cells h r o m shape :
  image_of_master (<[r := <["cells" := m]> o]> h) shape
  = image_of_master (<[r := delete "cells" o]> h) shape.
Proof.
  unfold image_of_master, hasattr. rewrite find_member_cells by done.
  destruct (find_member _ shape "master_shape") as [[?|]|]; cbn; [|done..].
  rewrite get_attribute_value_cells by done.
  rewrite !get_attribute_value_eq, !bind_Ok.
  destruct (truthy _); [by apply image_attribute_cells|done].
Qed.

Lemma image_of_fill_cells h r o m shape :
  image_of_fill (<[r := <["cells" := m]> o]> h) shape
  = image_of_fill (<[r := delete "cells" o]> h) shape.
Proof.
  unfold image_of_fill, hasattr. rewrite find_member_cells by done.
  destruct (find_member _ shape "fill") as [[?|]|]; cbn; [|done..].
  rewrite get_attribute_value_cells by done.
  rewrite !get_attribute_value_eq, !bind_Ok.
  destruct (truthy _); [by apply image_attribute_cells|done].
Qed.

(** X9: the member cells of a shape plays no part in the result of the
    image probe: whatever is put under that name, value, method or a getter
    that raises, the probe returns what it returns for the shape without
    it. *)
Theorem extract_image_ignores_cells (h : heap) r (o : object) m :
  _extract_image_from_shape (<[r := <["cells" := m]> o]> h) (VRef r)
  = _extract_image_from_shape (<[r := delete "cells" o]> h) (VRef r).
Proof.
  rewrite !extract_image_eq. unfold image_probes.
  by rewrite !image_attribute_cells, get_attribute_value_cells,
    image_of_master_cells, image_of_fill_cells by done.
Qed.

(** ** Invariants of the records *)

Lemma extract_shape_info_ind (P : nat → shape_info → Prop) h :
  (∀ depth fields subs,
     sub_shapes fields = [] →
     Forall (P (depth + 1)) subs →
     P depth (with_sub_shapes fields
                (if decide (depth < 5) then List.filter retained subs else []))) →
  ∀ shape depth info,
    _extract_shape_info h shape depth = Ok info → P depth info.
Proof.
  intros Hstep shape depth.
  remember (5 - depth) as k eqn:Hk. revert shape depth Hk.
  induction (lt_wf k) as [k _ IH]. intros shape depth -> info Hinfo.
  destruct (extract_shape_info_unfold h shape depth) as (f & subs & Hf & Hn & Heq).
  destruct (shape_fields_eq h shape) as (ty & img & _ & _ & Hf').
  rewrite Hinfo in Heq. injection Heq as ->.
  destruct (decide (depth < 5)) as [Hd|Hd].
  - specialize (Hstep depth f subs). rewrite decide_True in Hstep by done.
    apply Hstep; [rewrite Hf' in Hf; by injection Hf as <-|].
    apply Forall_forall. intros sub Hsub.
    apply list_elem_of_lookup in Hsub as [i Hi].
    destruct (Forall2_lookup_r _ _ _ _ _ Hn Hi) as (kid & _ & Hkid).
    eapply (IH (5 - (depth + 1))); [lia|done|done].
  - specialize (Hstep depth f []). rewrite decide_False in Hstep by done.
    apply Hstep; [rewrite Hf' in Hf; by injection Hf as <-|constructor].
Qed.

Lemma height_with_sub_shapes fields subs :
  height (with_sub_shapes fields subs)
  = foldr (λ sub n, Nat.max (S (height sub)) n) 0 subs.
Proof. done. Qed.

Lemma pruned_with_sub_shapes fields subs :
  pruned (with_sub_shapes fields subs)
  = forallb (λ sub, retained sub && pruned sub) subs.
Proof. done. Qed.

(** X10: a record normalised at a depth has at most [5 - depth] levels of
    sub-shapes below it: at most 5 for a top-level shape. *)
Theorem record_height h shape depth info :
  _extract_shape_info h shape depth = Ok info →
  height info ≤ 5 - depth.
Proof.
  revert shape depth info.
  apply (extract_shape_info_ind (λ depth info, height info ≤ 5 - depth)).
  intros depth f subs _ Hsubs. rewrite height_with_sub_shapes.
  destruct (decide (depth < 5)) as [Hd|Hd]; [|cbn; lia].
  induction Hsubs as [|sub subs Hsub _ IH]; cbn; [lia|].
  destruct (retained sub); cbn; lia.
Qed.

(** X11: in a record of the normaliser every sub-shape, at every level,
    passes the retention test: no record without text, name, sub-shapes,
    image and truthy id is left anywhere below the root. *)
Theorem record_pruned h shape depth info :
  _extract_shape_info h shape depth = Ok info →
  pruned info = true.
Proof.
  revert shape depth info.
  apply (extract_shape_info_ind (λ _ info, pruned info = true)).
  intros depth f subs _ Hsubs. rewrite pruned_with_sub_shapes.
  destruct (decide (depth < 5)) as [Hd|Hd]; [|done].
  induction Hsubs as [|sub subs Hsub _ IH]; cbn; [done|].
  destruct (retained sub) eqn:Hr; cbn; [|done]. by rewrite Hr, Hsub.
Qed.

(** ** The text of a record *)

Lemma lstrip_chars_head l c :
  head (lstrip_chars l) = Some c → isspace c = false.
Proof.
  induction l as [|a l IH]; cbn; [done|].
  destruct (isspace a) eqn:Ha; [done|]. cbn. by intros [= <-].
Qed.

Lemma lstrip_chars_id l :
  (∀ c, head l = Some c → isspace c = false) → lstrip_chars l = l.
Proof. destruct l as [|a l]; cbn; [done|]. intros H. by rewrite (H a). Qed.

Lemma lstrip_chars_suffix l : ∃ spaces, l = spaces ++ lstrip_chars l.
Proof.
  induction l as [|a l [spaces IH]]; cbn; [by exists []|].
  destruct (isspace a); [|by exists []].
  exists (a :: spaces). cbn. by rewrite <-IH.
Qed.

Lemma strip_chars_head l c :
  head (strip_chars l) = Some c → isspace c = false.
Proof.
  unfold strip_chars. intros Hc.
  destruct (lstrip_chars_suffix (reverse (lstrip_chars l))) as [spaces Hs].
  apply (f_equal reverse) in Hs.
  rewrite reverse_involutive, reverse_app in Hs.
  apply (lstrip_chars_head l). rewrite Hs.
  destruct (reverse (lstrip_chars (reverse (lstrip_chars l)))); [done|exact Hc].
Qed.

Lemma strip_chars_last l c :
  last (strip_chars l) = Some c → isspace c = false.
Proof. unfold strip_chars. rewrite last_reverse. apply lstrip_chars_head. Qed.

Lemma strip_chars_idemp l : strip_chars (strip_chars l) = strip_chars l.
Proof.
  unfold strip_chars at 1.
  rewrite (lstrip_chars_id (strip_chars l)) by apply strip_chars_head.
  unfold strip_chars. rewrite reverse_involutive.
  by rewrite (lstrip_chars_id (lstrip_chars _)) by apply lstrip_chars_head.
Qed.

Lemma chars_strip s : chars (strip s) = strip_chars (chars s).
Proof. unfold strip. by rewrite chars_of_chars. Qed.

Lemma of_chars_chars s : of_chars (chars s) = s.
Proof. apply String.string_of_list_ascii_of_string. Qed.

Lemma extract_shape_info_text h shape depth info :
  _extract_shape_info h shape depth = Ok info →
  text info = strip (py_str (attribute_value h shape "text" (VStr ""))).
Proof.
  intros Hi.
  destruct (extract_shape_info_unfold h shape depth) as (f & subs & Hf & _ & Heq).
  destruct (shape_fields_eq h shape) as (ty & img & _ & _ & Hf').
  rewrite Hf' in Hf. injection Hf as <-. rewrite Heq in Hi. by injection Hi as <-.
Qed.

(** X12: the text of a record neither begins nor ends with a whitespace
    character, and stripping it again changes nothing: the line the report
    prints for it, which strips the text once more, shows the text of the
    record. *)
Theorem record_text_stripped h shape depth info :
  _extract_shape_info h shape depth = Ok info →
  (∀ c, head (chars (text info)) = Some c → isspace c = false) ∧
  (∀ c, last (chars (text info)) = Some c → isspace c = false) ∧
  strip (text info) = text info.
Proof.
  intros Hi. rewrite (extract_shape_info_text _ _ _ _ Hi).
  rewrite chars_strip. split_and!.
  - apply strip_chars_head.
  - apply strip_chars_last.
  - change (strip (strip ?s)) with (of_chars (strip_chars (chars (strip s)))).
    by rewrite chars_strip, strip_chars_idemp.
Qed.

(** ** The record of a page *)

Lemma add_shapes_connections pd recs :
  page_connections (foldl add_shape pd recs)
  = page_connections pd ++ concat (connections <$> recs).
Proof.
  revert pd. induction recs as [|r recs IH]; intros pd; cbn.
  - by rewrite app_nil_r.
  - rewrite IH. cbn. by rewrite <-app_assoc.
Qed.

Lemma add_shapes_name pd recs :
  page_name (foldl add_shape pd recs) = page_name pd.
Proof. revert pd. induction recs as [|r recs IH]; intros pd; cbn; [done|by rewrite IH]. Qed.

Lemma extract_page_data_fields h page pd :
  _extract_page_data h page = Ok pd →
  page_name pd =
    (if truthy (attribute_value h page "name" (VStr "Unnamed Page"))
     then py_str (attribute_value h page "name" (VStr "Unnamed Page"))
     else "Unnamed Page") ∧
  page_connections pd = concat (connections <$> shapes pd).
Proof.
  unfold _extract_page_data, _extract_media_from_page.
  rewrite get_attribute_value_eq, !bind_Ok.
  destruct (_get_shapes_from_object h page) as [kids|]; [|done].
  destruct (normalised_exists h 0 kids) as [recs Hrecs].
  rewrite bind_Ok, (page_steps_eq _ _ _ _ Hrecs). intros [= <-].
  rewrite add_shapes_name, add_shapes_connections, add_shapes_shapes.
  match goal with |- context [add_media _ ?m] => by destruct m end.
Qed.


(** X14: the connections of a page are those of its top-level shapes, in
    page order; the connections recorded in sub-shapes are not among them
    unless a top-level shape has them too. *)
Theorem page_connections_flat h page pd :
  _extract_page_data h page = Ok pd →
  page_connections pd = concat (connections <$> shapes pd).
Proof. intros Hpd. by apply (extract_page_data_fields h page). Qed.

(** X15: a page is named Unnamed Page when its name is absent, when reading
    it fails and when it is falsy (None, the empty string, 0); otherwise it
    is named by the string of its name. *)
Theorem page_name_fallback h page pd :
  _extract_page_data h page = Ok pd →
  (attribute_try h page "name" = Ok None → page_name pd = "Unnamed Page") ∧
  (attribute_try h page "name" = Raise → page_name pd = "Unnamed Page") ∧
  (∀ v, attribute_try h page "name" = Ok (Some v) →
        page_name pd = if truthy v then py_str v else "Unnamed Page").
Proof.
  intros Hpd. destruct (extract_page_data_fields h page pd Hpd) as [-> _].
  unfold attribute_try, attribute_value, hasattr, getattr.
  destruct (find_member h page "name") as [[[v|[v|]]|]|]; cbn;
    split_and!; try done; by intros ? [= <-].
Qed.

(** ** The nodes of a diagram *)

#[local] Set Warnings "-clear-no-such-hyp".

Lemma nonempty_spec s : nonempty s = true ↔ s ≠ "".
Proof. unfold nonempty. by rewrite negb_true_iff, String.eqb_neq. Qed.

Lemma sanitize_text text shape_id :
  nonempty text = true →
  _sanitize_mermaid_id text shape_id
  = of_chars (take 50 (sanitize_char <$> chars text)).
Proof. intros H. unfold _sanitize_mermaid_id. by rewrite H. Qed.

Lemma sanitize_well_formed text shape_id :
  nonempty text = true → well_formed_id (_sanitize_mermaid_id text shape_id).
Proof.
  intros H. rewrite (sanitize_text _ _ H). split_and!.
  - destruct text as [|c text]; [done|]. by cbn.
  - rewrite length_of_chars, length_take. lia.
  - rewrite chars_of_chars. apply Forall_take, Forall_fmap, Forall_forall.
    intros c _. cbn. unfold sanitize_char. destruct (isalnum c) eqn:Hc; auto.
Qed.

Lemma add_nodes_from shapes lines seen :
  ∃ firsts,
    foldl add_node (lines, seen) shapes =
      (lines ++ ((λ s, node_line (node_id_of s) s) <$> firsts),
       list_to_set (node_id_of <$> firsts) ∪ seen) ∧
    sublist firsts shapes ∧
    Forall (λ s, eligible s = true ∧ node_id_of s ∉ seen) firsts ∧
    NoDup (node_id_of <$> firsts) ∧
    (∀ s, s ∈ shapes → eligible s = true →
          node_id_of s ∈ seen ∨ node_id_of s ∈ node_id_of <$> firsts) ∧
    (∀ pre s post,
       shapes = pre ++ s :: post → eligible s = true → node_id_of s ∉ seen →
       (∀ s', s' ∈ pre → eligible s' = true → node_id_of s' ≠ node_id_of s) →
       s ∈ firsts).
Proof.
  revert lines seen. induction shapes as [|x shapes IH]; intros lines seen.
  - exists []. cbn. rewrite app_nil_r, (left_id_L ∅ (∪)).
    split_and!; [done|done|constructor|constructor|set_solver|].
    intros [|??] ???; done.
  - cbn [foldl]. unfold add_node at 2. fold (eligible x). fold (node_id_of x).
    cbn [fst snd].
    destruct (eligible x) eqn:Hx;
      [destruct (bool_decide (node_id_of x ∈ seen)) eqn:Hin|].
    + apply bool_decide_eq_true in Hin.
      destruct (IH lines seen) as (firsts & -> & Hsub & Hall & Hnd & Hcov & Hfirst).
      exists firsts. split_and!; [done|by apply sublist_cons|done|done| |].
      * intros s [->|Hs]%elem_of_cons He; auto.
      * intros [|p pre] s post Heq He Hs Hpre; cbn in Heq;
          injection Heq as ? ?; subst; [done|].
        eapply Hfirst; [done..|]. intros s' Hs'. apply Hpre. by right.
    + apply bool_decide_eq_false in Hin.
      destruct (IH (lines ++ [node_line (node_id_of x) x]) ({[node_id_of x]} ∪ seen))
        as (firsts & -> & Hsub & Hall & Hnd & Hcov & Hfirst).
      exists (x :: firsts). split_and!.
      * cbn. rewrite <-app_assoc. f_equal. set_solver.
      * by apply sublist_skip.
      * constructor; [done|]. eapply Forall_impl; [done|]. set_solver.
      * cbn. constructor; [|done]. intros Hx'.
        apply list_elem_of_fmap in Hx' as (s & Heq & Hs).
        rewrite Forall_forall in Hall. destruct (Hall s Hs) as [_ Hn].
        rewrite Heq in Hn. set_solver.
      * intros s [->|Hs]%elem_of_cons He; [right; cbn; left|].
        destruct (Hcov s Hs He) as [Hc|Hc]; [|right; cbn; by right].
        apply elem_of_union in Hc as [->%elem_of_singleton|Hc]; [|by left].
        right. cbn. left.
      * intros [|p pre] s post Heq He Hs Hpre; cbn in Heq;
          injection Heq as ? ?; subst; [left|].
        right. eapply Hfirst; [done|done| |].
        -- intros [Hc%elem_of_singleton|Hc]%elem_of_union; [|done].
           eapply (Hpre p); [left|done|done].
        -- intros s' Hs'. apply Hpre. by right.
    + destruct (IH lines seen) as (firsts & -> & Hsub & Hall & Hnd & Hcov & Hfirst).
      exists firsts. split_and!; [done|by apply sublist_cons|done|done| |].
      * intros s [->|Hs]%elem_of_cons He; [congruence|auto].
      * intros [|p pre] s post Heq He Hs Hpre; cbn in Heq;
          injection Heq as ? ?; subst; [congruence|].
        eapply Hfirst; [done..|]. intros s' Hs'. apply Hpre. by right.
Qed.

(** X16: the node lines of a diagram declare each node identifier once.
    They are the lines of a sub-sequence of the shapes of the page, all with
    a label and a truthy id and with distinct identifiers; every such shape
    has its identifier declared, and of the shapes that share an identifier
    the first in page order is the one whose line is kept. *)
Theorem diagram_nodes_unique shapes :
  ∃ firsts,
    (foldl add_node ([], ∅) shapes).1
      = (λ s, node_line (node_id_of s) s) <$> firsts ∧
    sublist firsts shapes ∧
    Forall (λ s, eligible s = true) firsts ∧
    NoDup (node_id_of <$> firsts) ∧
    (∀ s, s ∈ shapes → eligible s = true →
          node_id_of s ∈ node_id_of <$> firsts) ∧
    (∀ pre s post,
       shapes = pre ++ s :: post → eligible s = true →
       (∀ s', s' ∈ pre → eligible s' = true → node_id_of s' ≠ node_id_of s) →
       s ∈ firsts).
Proof.
  destruct (add_nodes_from shapes [] ∅)
    as (firsts & -> & Hsub & Hall & Hnd & Hcov & Hfirst).
  exists firsts. split_and!; [done|done| |done| |].
  - eapply Forall_impl; [done|]. by intros s [? _].
  - intros s Hs He. destruct (Hcov s Hs He) as [Hc|Hc]; [set_solver|done].
  - intros pre s post Heq He Hpre. eapply Hfirst; [done|done|set_solver|done].
Qed.

(** ** The edges of a diagram *)

Lemma map_sub_shapes_lookup shape subs (m : gmap string string) k t :
  foldl (map_sub_shape shape) m subs !! k = Some t →
  m !! k = Some t ∨
  ∃ sub, sub ∈ subs ∧ nonempty (text sub) = true ∧ t = text sub.
Proof.
  revert m. induction subs as [|x subs IH]; intros m; cbn; [auto|].
  intros H. apply IH in H as [H|(sub & Hs & Hn & Ht)].
  - unfold map_sub_shape in H. destruct (nonempty (text x)) eqn:Hx; [|auto].
    rewrite lookup_insert in H. case_decide; [|auto].
    injection H as <-. right. exists x. split; [left|done].
  - right. exists sub. split; [by right|done].
Qed.

Lemma shape_map_lookup shapes (m : gmap string string) k t :
  foldl map_shape m shapes !! k = Some t →
  m !! k = Some t ∨
  (∃ s, s ∈ shapes ∧ eligible s = true ∧ t = label_of s) ∨
  (∃ s sub, s ∈ shapes ∧ sub ∈ sub_shapes s ∧
            nonempty (text sub) = true ∧ t = text sub).
Proof.
  revert m. induction shapes as [|x shapes IH]; intros m; cbn; [auto|].
  intros H. apply IH in H as [H|[(s & Hs & He & Ht)|(s & sub & Hs & Hsub & Hn & Ht)]].
  - unfold map_shape in H.
    apply map_sub_shapes_lookup in H as [H|(sub & Hsub & Hn & Ht)].
    + destruct (truthy (id x) && nonempty (label_of x)) eqn:Hx; [|auto].
      rewrite lookup_insert in H. case_decide; [|auto].
      injection H as <-. right. left. exists x. split; [left|].
      unfold eligible. by rewrite andb_comm.
    + right. right. exists x, sub. split; [left|done].
  - right. left. exists s. split; [by right|done].
  - right. right. exists s, sub. split; [by right|done].
Qed.

Lemma shape_map_resolves shapes k t shape_id :
  foldl map_shape ∅ shapes !! k = Some t →
  nonempty t = true ∧ resolves shapes (_sanitize_mermaid_id t shape_id).
Proof.
  intros H.
  apply shape_map_lookup in H as [H|[(s & Hs & He & ->)|(s & sub & Hs & Hsub & Hn & ->)]].
  - by rewrite lookup_empty in H.
  - pose proof He as He'. unfold eligible in He'.
    apply andb_true_iff in He' as [Hl _]. split; [done|].
    left. exists s. split_and!; [done..|].
    unfold node_id_of. by rewrite !sanitize_text.
  - split; [done|]. right. exists s, sub. split_and!; [done..|].
    by rewrite !sanitize_text.
Qed.

Lemma elem_of_concat {A} (x : A) (ls : list (list A)) :
  x ∈ concat ls ↔ ∃ l, x ∈ l ∧ l ∈ ls.
Proof.
  rewrite list_elem_of_In, in_concat. split.
  - intros (l & Hl & Hx). exists l. by rewrite !list_elem_of_In.
  - intros (l & Hx & Hl). exists l. by rewrite <-!list_elem_of_In.
Qed.

Lemma connection_lines_spec shapes connection line :
  line ∈ connection_lines (foldl map_shape ∅ shapes) connection →
  ∃ a b, line = edge_line a b ∧
         resolves shapes a ∧ resolves shapes b ∧
         well_formed_id a ∧ well_formed_id b.
Proof.
  unfold connection_lines.
  destruct (foldl map_shape ∅ shapes !! connection.1) as [ft|] eqn:Hf;
    [|by intros ?%elem_of_nil].
  destruct (foldl map_shape ∅ shapes !! connection.2) as [tt|] eqn:Ht;
    [|by intros ?%elem_of_nil].
  intros ->%list_elem_of_singleton.
  destruct (shape_map_resolves _ _ _ (VStr connection.1) Hf) as [Hnf Hrf].
  destruct (shape_map_resolves _ _ _ (VStr connection.2) Ht) as [Hnt Hrt].
  eexists _, _. split_and!; [done..| |]; by apply sanitize_well_formed.
Qed.

(** X17: in a diagram with connections every edge joins two identifiers
    that each are the node identifier of a shape of the page that has a
    node, or the sanitised text of a sub-shape of the page; there are no more
    edges than connections. *)
Theorem connection_edges_resolve shapes conns :
  length (concat (connection_lines (foldl map_shape ∅ shapes) <$> conns))
    ≤ length conns ∧
  ∀ line,
    line ∈ concat (connection_lines (foldl map_shape ∅ shapes) <$> conns) →
    ∃ a b, line = edge_line a b ∧ resolves shapes a ∧ resolves shapes b.
Proof.
  split.
  - induction conns as [|c conns IH]; cbn; [lia|].
    rewrite length_app. unfold connection_lines at 1.
    destruct (foldl map_shape ∅ shapes !! c.1),
      (foldl map_shape ∅ shapes !! c.2); cbn; lia.
  - intros line Hl. apply elem_of_concat in Hl as (ls & Hl & Hls).
    apply list_elem_of_fmap in Hls as (c & -> & _).
    apply connection_lines_spec in Hl as (a & b & ? & ? & ? & _).
    by exists a, b.
Qed.

Lemma bucket_text_nonempty t :
  is_setup (lower t) || is_staging (lower t) || is_finalization (lower t) = true →
  nonempty t = true.
Proof.
  destruct t as [|c t]; [|intros _; reflexivity].
  intros H. vm_compute in H. discriminate H.
Qed.

Lemma bucket_heads shapes :
  Forall (λ s, nonempty (text s) = true) (setup_shapes (group_shapes shapes)) ∧
  Forall (λ s, nonempty (text s) = true) (staging_shapes (group_shapes shapes)) ∧
  Forall (λ s, nonempty (text s) = true) (finalization_shapes (group_shapes shapes)).
Proof.
  unfold group_shapes. rewrite group_shapes_from. cbn.
  split_and!; apply Forall_forall; intros s [_ Hs]%list_elem_of_In%filter_In;
    apply bucket_text_nonempty;
    destruct (is_setup _), (is_staging _), (is_finalization _); done.
Qed.

(** X18: without connections the renderer draws at most two edges, one from
    the first setup shape to the first staging shape when both buckets have
    a shape, and one from the first staging shape to the first finalization
    shape when both buckets have a shape; the test on the two texts never
    stops an edge, because a shape in a bucket has a text. *)
Theorem inferred_edges shapes :
  inferred_lines shapes =
    match setup_shapes (group_shapes shapes),
          staging_shapes (group_shapes shapes) with
    | s :: _, t :: _ =>
        [edge_line (_sanitize_mermaid_id (text s) (id s))
                   (_sanitize_mermaid_id (text t) (id t))]
    | _, _ => []
    end ++
    match staging_shapes (group_shapes shapes),
          finalization_shapes (group_shapes shapes) with
    | s :: _, t :: _ =>
        [edge_line (_sanitize_mermaid_id (text s) (id s))
                   (_sanitize_mermaid_id (text t) (id t))]
    | _, _ => []
    end ∧
  length (inferred_lines shapes) ≤ 2.
Proof.
  destruct (bucket_heads shapes) as (H1 & H2 & H3).
  unfold inferred_lines, flow_lines.
  destruct (setup_shapes (group_shapes shapes)) as [|s1 ?],
    (staging_shapes (group_shapes shapes)) as [|s2 ?],
    (finalization_shapes (group_shapes shapes)) as [|s3 ?];
    repeat match goal with
      | H : Forall _ (_ :: _) |- _ => apply Forall_cons in H as [-> ?]
      end; cbn; split; (done || lia).
Qed.

(** ** The lines of a diagram *)





(** ** The sanitiser and the metadata *)

Lemma sanitize_char_idemp c : sanitize_char (sanitize_char c) = sanitize_char c.
Proof. unfold sanitize_char. destruct (isalnum c) eqn:Hc; [by rewrite Hc|done]. Qed.

(** X20: sanitising a sanitised text changes nothing: the identifier made
    of a non-empty text is a fixed point of the sanitiser, whatever shape
    identifiers are passed along. *)
Theorem sanitize_idempotent text shape_id shape_id' :
  text ≠ "" →
  _sanitize_mermaid_id (_sanitize_mermaid_id text shape_id) shape_id'
  = _sanitize_mermaid_id text shape_id.
Proof.
  intros Hne%nonempty_spec.
  destruct (sanitize_well_formed text shape_id Hne) as [Hr%nonempty_spec _].
  rewrite (sanitize_text _ shape_id' Hr), (sanitize_text _ _ Hne).
  rewrite chars_of_chars, fmap_take, take_take, <-list_fmap_compose.
  f_equal. f_equal. apply list_fmap_ext. intros i c _. apply sanitize_char_idemp.
Qed.

Lemma metadata_bullets (l : list (string * value)) :
  concat ((λ kv, if truthy kv.2
                 then ["- **" +:+ title kv.1 +:+ "**: " +:+ py_str kv.2]
                 else []) <$> l)
  = (λ kv, "- **" +:+ title kv.1 +:+ "**: " +:+ py_str kv.2)
      <$> List.filter (λ kv, truthy kv.2) l.
Proof.
  induction l as [|kv l IH]; cbn; [done|].
  rewrite IH. by destruct (truthy kv.2).
Qed.

(** X21: the report has no metadata section when every metadata value is
    falsy (or there is none); otherwise the section is its heading, one
    bullet for each truthy value, in the order of the mapping and labelled by
    the capitalised key, and an empty line. *)
Theorem metadata_section d :
  metadata_lines d =
    match List.filter (λ kv, truthy kv.2) (metadata d) with
    | [] => []
    | shown_values =>
        ["## Metadata" +:+ newline] ++
        ((λ kv, "- **" +:+ title kv.1 +:+ "**: " +:+ py_str kv.2)
           <$> shown_values) ++
        [""]
    end.
Proof.
  unfold metadata_lines. rewrite metadata_bullets.
  induction (metadata d) as [|kv l IH]; cbn; [done|].
  destruct (truthy kv.2) eqn:Hkv; cbn; [done|].
  destruct (existsb _ l) eqn:He; [|by destruct (List.filter _ l)].
  by destruct (List.filter _ l).
Qed.

(** ** The conversion of a document *)

Lemma images_count_eq h page pd :
  _extract_page_data h page = Ok pd →
  images_count pd
  = length (page_media pd) + length (List.filter has_image (shapes pd)).
Proof.
  intros Hpd. pose proof (extract_page_data_eq h page) as Hp.
  destruct (_get_shapes_from_object h page) as [kids|]; [|congruence].
  destruct Hp as (pd0 & recs & _ & Hs & Hc & Heq).
  rewrite Hpd in Heq. injection Heq as ->.
  by rewrite add_shapes_count, add_shapes_media, add_shapes_shapes, Hs, Hc.
Qed.

Lemma readable_page_spec h page :
  readable_page h page = false ↔ _extract_page_data h page = Raise.
Proof.
  pose proof (extract_page_data_eq h page) as Hp.
  rewrite get_shapes_eq in Hp. unfold readable_page, candidate_names. cbn.
  destruct (find_member h page "shapes") as [[?|]|],
    (find_member h page "child_shapes") as [[?|]|],
    (find_member h page "sub_shapes") as [[?|]|]; cbn;
    try (destruct Hp as (? & ? & _ & _ & _ & ->)); done.
Qed.

Lemma convert_pages_from h items pds total :
  ∃ kept,
    foldl (λ acc page, st ← acc; convert_page_step h st page)
          (Ok (pds, total)) items
    = Ok (pds ++ kept, total + sum_list (images_count <$> kept)) ∧
    Forall2 (λ page pd, _extract_page_data h page = Ok pd)
            (List.filter (readable_page h) items) kept.
Proof.
  revert pds total. induction items as [|page items IH]; intros pds total.
  - exists []. cbn. rewrite app_nil_r, Nat.add_0_r. split; [done|constructor].
  - cbn [foldl List.filter]. rewrite bind_Ok. unfold convert_page_step at 2.
    destruct (_extract_page_data h page) as [pd|] eqn:Hpd;
      rewrite ?bind_Ok, ?bind_Raise; cbn [try_except fst snd].
    + destruct (readable_page h page) eqn:Hr;
        [|apply readable_page_spec in Hr; congruence].
      destruct (IH (pds ++ [pd]) (total + images_count pd)) as (kept & -> & Hk).
      exists (pd :: kept). rewrite <-app_assoc, fmap_cons.
      split; [cbn; by rewrite Nat.add_assoc|].
      by constructor.
    + apply readable_page_spec in Hpd. rewrite Hpd. apply IH.
Qed.

Lemma read_document_eq h name vis :
  match document_pages h vis with
  | Ok items =>
      ∃ md kept,
        try_except (metadata_try h vis) (Ok []) = Ok md ∧
        Forall2 (λ page pd, _extract_page_data h page = Ok pd)
                (List.filter (readable_page h) items) kept ∧
        read_document h name vis =
          Ok {| file_name := name; pages := kept; metadata := md;
                total_images := sum_list (images_count <$> kept) |}
  | Raise => read_document h name vis = Raise
  end.
Proof.
  unfold read_document.
  destruct (metadata_try h vis) as [md|]; cbn [try_except]; rewrite bind_Ok;
    (destruct (document_pages h vis) as [items|]; [|done]);
    rewrite bind_Ok;
    destruct (convert_pages_from h items [] 0) as (kept & -> & Hk);
    eexists _, kept; (split; [reflexivity|]); (split; [exact Hk|]); done.
Qed.

(** X22: the checks of [convert] come in a fixed order, all before the file
    is opened: a missing library, then a missing file, then a suffix other
    than .vsdx in any letter case.  After them the conversion succeeds
    exactly when the file opens and its pages can be listed, whatever the
    pages hold; otherwise it fails with the error for reading. *)
Theorem convert_outcome vsdx_installed file_exists suffix name visio_file h
    output_format :
  (vsdx_installed = false →
     convert vsdx_installed file_exists suffix name visio_file h output_format
     = inl ImportError) ∧
  (vsdx_installed = true → file_exists = false →
     convert vsdx_installed file_exists suffix name visio_file h output_format
     = inl FileNotFoundError) ∧
  (vsdx_installed = true → file_exists = true → lower suffix ≠ ".vsdx" →
     convert vsdx_installed file_exists suffix name visio_file h output_format
     = inl ValueError_unsupported_format) ∧
  (vsdx_installed = true → file_exists = true → lower suffix = ".vsdx" →
     match visio_file ≫= document_pages h with
     | Ok _ =>
         ∃ d, visio_file ≫= read_document h name = Ok d ∧
              convert vsdx_installed file_exists suffix name visio_file h
                output_format = inr (in_format output_format d)
     | Raise =>
         convert vsdx_installed file_exists suffix name visio_file h
           output_format = inl ValueError_reading_file
     end).
Proof.
  unfold convert. split_and!.
  - by intros ->.
  - by intros -> ->.
  - intros -> -> Hs%String.eqb_neq. by rewrite Hs.
  - intros -> -> Hs%String.eqb_eq. rewrite Hs. cbn [negb].
    destruct visio_file as [vis|]; [|done]. rewrite !bind_Ok.
    pose proof (read_document_eq h name vis) as Hd.
    destruct (document_pages h vis) as [items|].
    + destruct Hd as (md & kept & _ & _ & ->). eexists. split; [done|]. done.
    + by rewrite Hd.
Qed.

(** X23: the total number of images of a document is the sum, over the
    pages of its record, of the media items of the page and of its top-level
    shapes that have an image. *)
Theorem total_images_sum h name vis d :
  read_document h name vis = Ok d →
  total_images d = sum_list (images_count <$> pages d) ∧
  total_images d
  = sum_list ((λ pd, length (page_media pd) +
                     length (List.filter has_image (shapes pd))) <$> pages d).
Proof.
  intros Hd. pose proof (read_document_eq h name vis) as He.
  destruct (document_pages h vis) as [items|]; [|congruence].
  destruct He as (md & kept & _ & Hk & He). rewrite Hd in He. injection He as ->.
  cbn. split; [done|]. f_equal. clear Hd.
  induction Hk as [|page pd ? kept Hpd _ IH]; [done|].
  cbn. by rewrite IH, (images_count_eq _ _ _ Hpd).
Qed.


Lemma metadata_try_cases h vis md :
  metadata_try h vis = Ok md →
  (md = [] ∧ find_member h vis "app_properties" = None) ∨
  (∃ t c co, md = [("title", t); ("creator", c); ("company", co)]).
Proof.
  unfold metadata_try, hasattr, getattr.
  destruct (find_member h vis "app_properties") as [[a|]|]; cbn; [| |by intros [= <-]; left].
  - destruct (getattr_default _ _ "title" _) as [t|]; [|done].
    destruct (getattr_default _ _ "creator" _) as [c|]; [|done].
    destruct (getattr_default _ _ "company" _) as [co|]; [|done].
    cbn. intros [= <-]. right. eauto.
  - done.
Qed.

(** X25: reading the metadata never stops the conversion.  The metadata of
    the record is empty, or holds title, creator and company in this order;
    it is empty when the document has no application properties and when
    reading them or one of the three values raises, and then the report has
    no metadata section. *)
Theorem convert_metadata h name vis d :
  read_document h name vis = Ok d →
  (metadata d = [] ∨
   ∃ t c co, metadata d = [("title", t); ("creator", c); ("company", co)]) ∧
  (metadata_try h vis = Raise → metadata d = []) ∧
  (find_member h vis "app_properties" = None → metadata d = []) ∧
  (metadata d = [] → metadata_lines d = []).
Proof.
  intros Hd. pose proof (read_document_eq h name vis) as He.
  destruct (document_pages h vis) as [items|]; [|congruence].
  destruct He as (md & kept & Hm & _ & He). rewrite Hd in He. injection He as ->.
  cbn [metadata]. split_and!.
  - destruct (metadata_try h vis) as [md'|] eqn:Hmd; cbn in Hm; injection Hm as <-;
      [|by left].
    apply metadata_try_cases in Hmd as [[-> _]|?]; auto.
  - intros Hr. rewrite Hr in Hm. by injection Hm as <-.
  - intros Ha. unfold metadata_try, hasattr in Hm. rewrite Ha in Hm.
    by injection Hm as <-.
  - unfold metadata_lines. cbn [metadata]. by intros ->.
Qed.

(** ** Which connections are drawn *)

Lemma map_sub_shapes_keeps shape subs (m : gmap string string) k :
  is_Some (m !! k) → is_Some (foldl (map_sub_shape shape) m subs !! k).
Proof.
  revert m. induction subs as [|x subs IH]; intros m Hk; cbn; [done|].
  apply IH. unfold map_sub_shape. destruct (nonempty (text x)); [|done].
  rewrite lookup_insert. by case_decide.
Qed.

Lemma shape_map_keeps shapes (m : gmap string string) k :
  is_Some (m !! k) → is_Some (foldl map_shape m shapes !! k).
Proof.
  revert m. induction shapes as [|x shapes IH]; intros m Hk; cbn; [done|].
  apply IH. unfold map_shape. apply map_sub_shapes_keeps.
  destruct (truthy (id x) && nonempty (label_of x)); [|done].
  rewrite lookup_insert. by case_decide.
Qed.

Lemma shape_map_has shapes (m : gmap string string) s :
  s ∈ shapes → eligible s = true →
  is_Some (foldl map_shape m shapes !! py_str (id s)).
Proof.
  revert m. induction shapes as [|x shapes IH]; intros m Hs He;
    [by apply elem_of_nil in Hs|].
  apply elem_of_cons in Hs as [->|Hs]; [|by apply IH].
  cbn. apply shape_map_keeps. unfold map_shape. apply map_sub_shapes_keeps.
  unfold eligible in He. rewrite andb_comm in He. rewrite He.
  by rewrite lookup_insert_eq.
Qed.

(** X26: a connection of the page whose two ends are the strings of the
    ids of two shapes of the page that have a node is drawn: the diagram has
    an edge line for it. *)
Theorem connection_edges_complete shapes conns s t :
  s ∈ shapes → t ∈ shapes → eligible s = true → eligible t = true →
  (py_str (id s), py_str (id t)) ∈ conns →
  ∃ a b,
    connection_lines (foldl map_shape ∅ shapes) (py_str (id s), py_str (id t))
      = [edge_line a b] ∧
    edge_line a b
      ∈ concat (connection_lines (foldl map_shape ∅ shapes) <$> conns).
Proof.
  intros Hs Ht Hes Het Hc.
  destruct (shape_map_has shapes ∅ s Hs Hes) as [ft Hf].
  destruct (shape_map_has shapes ∅ t Ht Het) as [tt Htt].
  eexists _, _. split.
  - unfold connection_lines. cbn [fst snd]. rewrite Hf, Htt. reflexivity.
  - apply elem_of_concat. eexists. split; [|apply list_elem_of_fmap; eauto].
    unfold connection_lines. cbn [fst snd]. rewrite Hf, Htt. left.
Qed.

(** X27: two non-empty texts that agree on their first 50 characters get
    the same identifier, whatever follows in them and whatever ids they come
    with. *)
Theorem sanitize_truncation_collides text1 text2 shape_id1 shape_id2 :
  text1 ≠ "" → text2 ≠ "" →
  take 50 (chars text1) = take 50 (chars text2) →
  _sanitize_mermaid_id text1 shape_id1 = _sanitize_mermaid_id text2 shape_id2.
Proof.
  intros H1%nonempty_spec H2%nonempty_spec Heq.
  rewrite (sanitize_text _ _ H1), (sanitize_text _ _ H2).
  by rewrite <-!fmap_take, Heq.
Qed.

End Converter.

(** * The assertions of the test suite that need no mock object *)

Example test_sanitize_mermaid_id :
  _sanitize_mermaid_id no_repr "Hello World" VNone = "Hello_World" ∧
  _sanitize_mermaid_id no_repr "Test-123!@#$%" VNone = "Test_123_____" ∧
  String.length
    (_sanitize_mermaid_id no_repr (String.concat "" (replicate 100 "A")) VNone)
    = 50 ∧
  _sanitize_mermaid_id no_repr "" (VInt 123) = "shape_123" ∧
  _sanitize_mermaid_id no_repr "" VNone = "unknown".
Proof. repeat split. Qed.

Example test_extract_shape_info_with_depth_limit :
  let h := make_heap
    [(1, make_object [("text", plain (VStr "Parent")); ("ID", plain (VInt 1));
                      ("shapes", plain (VList [VRef 2]))]);
     (2, make_object [("text", plain (VStr "Child")); ("ID", plain (VInt 2));
                      ("shapes", plain (VList []))])] in
  (length ∘ sub_shapes <$> _extract_shape_info no_repr h (VRef 1) 5) = Ok 0 ∧
  (length ∘ sub_shapes <$> _extract_shape_info no_repr h (VRef 1) 0) = Ok 1.
Proof. repeat split. Qed.

Example test_generate_mermaid_diagram_with_page_media :
  diagram_lines no_repr
    (PageData "" [] [] 0 [MediaItem (VInt 0) image_bytes "page.media"]) =
  ["```mermaid"; "graph TD";
   "    page_image_0[" +:+ quoted (camera +:+ " Page Image 1") +:+ "]";
   ""; "    %% Hierarchical structure (inferred)"; "```"].
Proof. reflexivity. Qed.

Example test_mermaid_special_characters :
  let label := "Shape with " +:+ quoted "quotes" in
  diagram_lines no_repr (page_of [text_shape "1" label]) =
  ["```mermaid"; "graph TD";
   "    Shape_with__quotes_[" +:+ quoted "Shape with 'quotes'" +:+ "]";
   ""; "    %% Hierarchical structure (inferred)"; "```"].
Proof. reflexivity. Qed.

Example test_metadata_with_empty_values :
  _to_markdown no_repr
    (Document "test.vsdx" []
       [("title", VStr ""); ("creator", VNone); ("company", VStr "")] 0) =
  String.concat newline
    ["# test.vsdx" +:+ newline;
     "**Total Images Found**: 0" +:+ newline;
     "## Pages (0 total)" +:+ newline].
Proof. reflexivity. Qed.

(** * The properties at the example objects *)

(** The shape that is its own child: it has a child at every depth, no
    sub-shape at depth 5, and a record at depth 0. *)
Lemma depth_limit_cyclic :
  children cyclic_heap (VRef 1) = [VRef 1] ∧
  (∃ info,
     _extract_shape_info no_repr cyclic_heap (VRef 1) 5 = Ok info ∧
     sub_shapes info = []) ∧
  ∃ info subs,
    _extract_shape_info no_repr cyclic_heap (VRef 1) 0 = Ok info ∧
    normalised no_repr cyclic_heap 1 (children cyclic_heap (VRef 1)) subs ∧
    sub_shapes info = List.filter retained subs.
Proof.
  split; [reflexivity|]. split.
  - apply (depth_limit no_repr cyclic_heap (VRef 1)).
  - apply (depth_limit no_repr cyclic_heap (VRef 1)). lia.
Defined.

(** The retention test at the parent of [zero_id_heap]. *)
Lemma sub_shapes_retention_example :
  ∃ info subs,
    _extract_shape_info no_repr zero_id_heap (VRef 1) 0 = Ok info ∧
    normalised no_repr zero_id_heap 1 (children zero_id_heap (VRef 1)) subs ∧
    sub_shapes info = List.filter retained subs ∧
    ∀ sub, sub ∈ sub_shapes info ↔ sub ∈ subs ∧ retained sub = true.
Proof.
  destruct (sub_shapes_retention no_repr zero_id_heap (VRef 1) 0 (VRef 1))
    as [(info & subs & Hi & Hn & Hr) _].
  exists info, subs. split_and!; [done..|apply Hr; lia|apply Hr; lia].
Defined.

(** C2, as stated, fails: the child's record has an id that is not absent,
    so it has observable content, and it is not among the sub-shapes of its
    parent. *)
Lemma zero_id_child_is_pruned :
  children zero_id_heap (VRef 1) = [VRef 2] ∧
  ∃ parent child,
    _extract_shape_info no_repr zero_id_heap (VRef 1) 0 = Ok parent ∧
    _extract_shape_info no_repr zero_id_heap (VRef 2) 1 = Ok child ∧
    id child = VInt 0 ∧ observable child = true ∧
    sub_shapes parent = [].
Proof.
  split; [reflexivity|]. eexists _, _.
  split; [vm_compute; reflexivity|]. split; [vm_compute; reflexivity|].
  repeat split.
Qed.

(** The count of [page_heap]: one media item and one top-level picture; the
    image of the group's sub-shape is in that sub-shape's record only. *)
Lemma images_count_example :
  ∃ pd,
    _extract_page_data no_repr page_heap (VRef 0) = Ok pd ∧
    images_count pd
    = length (page_media pd) + length (List.filter has_image (shapes pd)) ∧
    images_count pd = 2 ∧ length (page_media pd) = 1 ∧
    (has_image <$> shapes pd) = [true; false] ∧
    ((λ info, has_image <$> sub_shapes info) <$> shapes pd) = [[]; [true]].
Proof.
  eexists. split; [vm_compute; reflexivity|].
  split; [apply (images_count_spec no_repr page_heap (VRef 0)); vm_compute; reflexivity|].
  repeat split.
Defined.

(** Strategy A at the connector of [faulty_connector_heap]. *)
Lemma extract_connections_example :
  strategy_a no_repr faulty_connector_heap (VRef 1) = Ok [("1", "2")].
Proof.
  apply (extract_connections_spec no_repr faulty_connector_heap (VRef 1));
    vm_compute; reflexivity.
Defined.

(** C3, as stated, fails: extraction fails in Strategy B, after Strategy A
    has appended its pair, and the result is not empty. *)
Lemma failure_keeps_strategy_a_pair :
  strategy_b no_repr faulty_connector_heap (VRef 1) = Raise ∧
  (connections_try no_repr faulty_connector_heap (VRef 1)).2 = Raise ∧
  _extract_connections no_repr faulty_connector_heap (VRef 1) = Ok [("1", "2")].
Proof. repeat split. Qed.



(** The sanitiser at a text of the test suite and at an integer id. *)
Lemma sanitize_mermaid_id_example :
  String.length (_sanitize_mermaid_id no_repr "Test-123!@#$%" VNone) = 13 ∧
  _sanitize_mermaid_id no_repr "" (VInt 123) = "shape_123".
Proof.
  split.
  - apply (sanitize_mermaid_id_spec no_repr "Test-123!@#$%" VNone). discriminate.
  - apply (sanitize_mermaid_id_spec no_repr "" (VInt 123)). reflexivity.
Defined.

(** C9, as stated, fails: a shape that has an id and nothing else passes
    the retention test and is not listed, and a shape that has a type and
    nothing else fails the retention test and is listed. *)
Lemma listing_differs_from_retention :
  retained id_only_shape = true ∧ observable id_only_shape = true ∧
  detail_lines no_repr (page_of [id_only_shape]) =
    ["#### Detailed Shape Information" +:+ newline;
     "**Total shapes**: 1" +:+ newline;
     no_content_notice] ∧
  retained type_only_shape = false ∧ observable type_only_shape = false ∧
  detail_lines no_repr (page_of [type_only_shape]) =
    ["#### Detailed Shape Information" +:+ newline;
     "**Total shapes**: 1" +:+ newline;
     "##### Shape 1"; "- **Type**: Rectangle"; ""].
Proof. repeat split. Qed.

(** * Further properties at example objects *)

(** A group that lists the same two children under two names. *)
Lemma get_shapes_merges_example :
  _get_shapes_from_object
    (make_heap [(1, make_object [("shapes", plain (VList [VRef 2; VRef 3]));
                                 ("sub_shapes", plain (VList [VRef 2; VRef 3]))])])
    (VRef 1)
  = Ok [VRef 2; VRef 3; VRef 2; VRef 3].
Proof.
  apply (get_shapes_merges _ _ [VRef 2; VRef 3] [] [VRef 2; VRef 3]).
  - left. reflexivity.
  - right. right. split; reflexivity.
  - left. reflexivity.
Defined.

(** The media of the page of [page_heap], which has no images member. *)
Lemma page_media_of_lists_example :
  _extract_media_from_page page_heap (VRef 0)
  = Ok [MediaItem (VInt 0) image_bytes "page.media"].
Proof.
  apply (page_media_of_lists page_heap (VRef 0) [image_bytes] []).
  - left. reflexivity.
  - right. right. split; reflexivity.
Defined.

(** A page with a dictionary under each of the two names. *)
Lemma page_media_of_dicts_example :
  _extract_media_from_page
    (make_heap
       [(0, make_object
              [("media", plain (VDict [(VStr "rId1", image_bytes)]));
               ("images", plain (VDict [(VStr "rId2", image_bytes)]))])])
    (VRef 0)
  = Ok [MediaItem (VStr "rId1") image_bytes "page.media"].
Proof.
  apply (page_media_of_dicts _ _ [(VStr "rId1", image_bytes)]
           [(VStr "rId2", image_bytes)]); reflexivity.
Defined.

(** The picture of [page_heap], whose image is under the first name. *)
Lemma extract_image_order_example :
  _extract_image_from_shape page_heap (VRef 1) = Ok image_bytes.
Proof.
  apply (extract_image_order page_heap (VRef 1) [] "image_data" ["image"; "file"]);
    [reflexivity|constructor|reflexivity].
Defined.

(** The cyclic shape at depth 0: its record has five levels below it. *)
Lemma record_height_example :
  ∃ info,
    _extract_shape_info no_repr cyclic_heap (VRef 1) 0 = Ok info ∧
    height info = 5 ∧ height info ≤ 5 - 0.
Proof.
  eexists. split; [vm_compute; reflexivity|]. split; [reflexivity|].
  apply (record_height no_repr cyclic_heap (VRef 1) 0). vm_compute. reflexivity.
Defined.

(** The group of [page_heap], whose sub-shape is kept for its image. *)
Lemma record_pruned_example :
  ∃ info,
    _extract_shape_info no_repr page_heap (VRef 2) 0 = Ok info ∧
    length (sub_shapes info) = 1 ∧ pruned info = true.
Proof.
  eexists. split; [vm_compute; reflexivity|]. split; [reflexivity|].
  apply (record_pruned no_repr page_heap (VRef 2) 0). vm_compute. reflexivity.
Defined.

(** A shape whose text has white space on both sides. *)
Lemma record_text_stripped_example :
  ∃ info,
    _extract_shape_info no_repr padded_text_heap (VRef 1) 0 = Ok info ∧
    text info = "Start here" ∧ strip (text info) = text info.
Proof.
  destruct (_extract_shape_info no_repr padded_text_heap (VRef 1) 0)
    as [info|] eqn:E; [|vm_compute in E; discriminate E].
  exists info. split; [reflexivity|].
  pose proof (record_text_stripped no_repr _ _ _ _ E) as (_ & _ & H).
  split; [|exact H].
  vm_compute in E. injection E as <-. reflexivity.
Defined.

(** The page of [connector_page_heap], made of one connector. *)
Lemma page_connections_flat_example :
  ∃ pd,
    _extract_page_data no_repr connector_page_heap (VRef 0) = Ok pd ∧
    page_connections pd = [("1", "2")] ∧
    page_connections pd = concat (connections <$> shapes pd).
Proof.
  destruct (_extract_page_data no_repr connector_page_heap (VRef 0))
    as [pd|] eqn:E; [|vm_compute in E; discriminate E].
  exists pd. split; [reflexivity|].
  pose proof (page_connections_flat no_repr _ _ _ E) as H.
  split; [|exact H].
  vm_compute in E. injection E as <-. reflexivity.
Defined.

(** A page whose name is the empty string. *)
Lemma page_name_fallback_example :
  ∃ pd,
    _extract_page_data no_repr unnamed_page_heap (VRef 0) = Ok pd ∧
    page_name pd = "Unnamed Page".
Proof.
  destruct (_extract_page_data no_repr unnamed_page_heap (VRef 0))
    as [pd|] eqn:E; [|vm_compute in E; discriminate E].
  exists pd. split; [reflexivity|].
  pose proof (page_name_fallback no_repr _ _ _ E) as (_ & _ & H).
  apply (H (VStr "")). reflexivity.
Defined.


(** A text of the test suite, sanitised twice. *)
Lemma sanitize_idempotent_example :
  _sanitize_mermaid_id no_repr
    (_sanitize_mermaid_id no_repr "Test-123!@#$%" VNone) (VInt 7)
  = "Test_123_____".
Proof.
  rewrite (sanitize_idempotent no_repr "Test-123!@#$%" VNone (VInt 7)); [|discriminate].
  reflexivity.
Defined.

(** The conversion of [document_heap] to JSON: the page whose getter
    raises is left out, and the images are counted over the other two. *)
Lemma convert_outcome_example :
  ∃ d,
    convert no_repr true true ".VSDX" "plan.vsdx" (Ok (VRef 10)) document_heap "JSON"
      = inr (Json d) ∧
    page_name <$> pages d = ["Page-1"; "Unnamed Page"] ∧
    total_images d = 2 ∧
    metadata d = [("title", VStr "Plan"); ("creator", VNone); ("company", VStr "")].
Proof.
  destruct (convert_outcome no_repr true true ".VSDX" "plan.vsdx" (Ok (VRef 10))
              document_heap "JSON") as (_ & _ & _ & H).
  specialize (H eq_refl eq_refl eq_refl).
  destruct (Ok (VRef 10) ≫= document_pages document_heap) eqn:E;
    [|vm_compute in E; discriminate E].
  destruct H as (d & Hd & Hc). exists d. split; [exact Hc|].
  vm_compute in Hd. injection Hd as <-. repeat split.
Defined.

Lemma total_images_sum_example :
  ∃ d,
    read_document no_repr document_heap "plan.vsdx" (VRef 10) = Ok d ∧
    total_images d = 2 ∧
    total_images d = sum_list (images_count <$> pages d).
Proof.
  destruct (read_document no_repr document_heap "plan.vsdx" (VRef 10))
    as [d|] eqn:E; [|vm_compute in E; discriminate E].
  exists d. split; [reflexivity|].
  pose proof (total_images_sum no_repr _ _ _ _ E) as [H _].
  split; [|exact H]. vm_compute in E. injection E as <-. reflexivity.
Defined.


Lemma convert_metadata_example :
  ∃ d,
    read_document no_repr document_heap "plan.vsdx" (VRef 10) = Ok d ∧
    ∃ t c co, metadata d = [("title", t); ("creator", c); ("company", co)].
Proof.
  destruct (read_document no_repr document_heap "plan.vsdx" (VRef 10))
    as [d|] eqn:E; [|vm_compute in E; discriminate E].
  exists d. split; [reflexivity|].
  pose proof (convert_metadata no_repr _ _ _ _ E) as ([H|H] & _); [|exact H].
  exfalso. vm_compute in E. injection E as <-. discriminate H.
Defined.

(** The first connection of [example_page]. *)
Lemma connection_edges_complete_example :
  ∃ a b,
    connection_lines no_repr
      (foldl (map_shape no_repr) ∅ (shapes example_page)) ("1", "2")
      = [edge_line a b] ∧
    edge_line a b
      ∈ concat (connection_lines no_repr
                  (foldl (map_shape no_repr) ∅ (shapes example_page))
                  <$> page_connections example_page).
Proof.
  apply (connection_edges_complete no_repr (shapes example_page)
           (page_connections example_page)
           (text_shape "1" "Start") (text_shape "2" "Process")).
  - apply list_elem_of_In. cbn. auto.
  - apply list_elem_of_In. cbn. auto.
  - reflexivity.
  - reflexivity.
  - apply list_elem_of_In. cbn. auto.
Defined.

(** Two texts of 52 characters that differ in the last two. *)
Lemma sanitize_truncation_collides_example :
  _sanitize_mermaid_id no_repr
    (String.concat "" (replicate 50 "A") +:+ "-1") (VInt 1)
  = _sanitize_mermaid_id no_repr
    (String.concat "" (replicate 50 "A") +:+ "-2") (VInt 2).
Proof.
  apply (sanitize_truncation_collides no_repr); [discriminate|discriminate|].
  vm_compute. reflexivity.
Defined.
